(** * Docstring decomposition engine: registry, resolver, expansion, driver

    A shallow embedding of [assistance/_ai/controller/generate_docstrings.py].

    The on-disk registry is a record of three finite maps, the traversal set
    [already_traversing] is a finite set shared by one depth pass, and the
    external collaborators (the completion gateway, the nearest-neighbour
    service, [json.loads], [hash_for_docstring] and the three prompt
    templates) are section variables.  Python exceptions are results of a
    state-and-exception monad which keeps the state reached when the exception
    was raised.  [asyncio.gather] is modelled by the schedule in which the
    child coroutines run one after the other in list order (the schedule
    taken when no collaborator suspends). *)

From stdpp Require Import gmap strings list pretty.
From Stdlib Require Import Ascii ZArith Lia.

Set Warnings "-register-all,-clear-no-such-hyp".

Local Open Scope Z_scope.
Local Open Scope string_scope.

(** ** Python-side data *)

(** The value of [json.loads]: Python's [None], [bool], [int], [float],
    [str], [list] and [dict] (keys in insertion order). *)
Inductive json : Type :=
  | JNull
  | JBool (b : bool)
  | JInt (n : Z)
  | JFloat (literal : string)
  | JStr (s : string)
  | JArr (items : list json)
  | JObj (fields : list (string * json)).

(** The result of [json.loads]: the parsed value, or [json.JSONDecodeError]
    carried as [repr(e)]. *)
Inductive loads_result : Type :=
  | Parsed (data : json)
  | JSONDecodeError (repr_e : string).

(** The exceptions the module can raise. *)
Inductive exn : Type :=
  | FileNotFoundError
  | TypeError
  | KeyError
  | IndexError
  | AssertionError.

Global Instance exn_eq_dec : EqDecision exn.
Proof. solve_decision. Defined.

(** [Tree = dict[str, list["Tree"]]]. *)
Inductive Tree : Type :=
  | TreeNode (docstring_hash : string) (sub_trees : list Tree).

(** The registry under [AI_REGISTRY_DIR]:
    [docstrings/<hash>.txt] (file content by hash), and the directories
    [dependencies/<hash>/] and [dependents/<hash>/] (the set of the names of
    the marker files of each existing directory). *)
Record Registry : Type := mkRegistry {
  docstrings : gmap string string;
  dependencies : gmap string (gset string);
  dependents : gmap string (gset string)
}.

Definition empty_registry : Registry := mkRegistry ∅ ∅ ∅.

Definition nl : string := String (Ascii.ascii_of_nat 10) EmptyString.

(** ** [pathlib.PurePath.stem] on a file name

    [i = name.rfind('.')]; the stem is [name[:i]] when
    [0 < i < len(name) - 1] and the whole name otherwise. *)
Fixpoint rfind_dot_from (i : nat) (name : string) : option nat :=
  match name with
  | EmptyString => None
  | String c rest =>
      match rfind_dot_from (S i) rest with
      | Some j => Some j
      | None => if Ascii.eqb c "."%char then Some i else None
      end
  end.

Fixpoint string_take (n : nat) (s : string) : string :=
  match n, s with
  | S m, String c rest => String c (string_take m rest)
  | _, _ => EmptyString
  end.

Definition stem (name : string) : string :=
  match rfind_dot_from 0 name with
  | Some i =>
      if bool_decide (0 < i < String.length name - 1)%nat
      then string_take i name else name
  | None => name
  end.

(** ** List operations of Python *)

(** [lst.remove(x)] with the [ValueError] swallowed: the first occurrence
    goes, an absent value leaves the list as it is. *)
Fixpoint list_remove_first (x : string) (l : list string) : list string :=
  match l with
  | [] => []
  | y :: rest => if decide (y = x) then rest else y :: list_remove_first x rest
  end.

(** [lst[i]] for an integer [i]: negative indices count from the end,
    anything outside [-len, len) is an [IndexError]. *)
Definition python_index {A} (l : list A) (i : Z) : option A :=
  if bool_decide (0 <= i < Z.of_nat (length l)) then l !! Z.to_nat i
  else if bool_decide (- Z.of_nat (length l) <= i < 0)
       then l !! Z.to_nat (Z.of_nat (length l) + i)
       else None.

(** [enumerate] *)
Fixpoint enumerate_from {A} (i : nat) (l : list A) : list (nat * A) :=
  match l with
  | [] => []
  | x :: rest => (i, x) :: enumerate_from (S i) rest
  end.

(** [sep.join(parts)] *)
Fixpoint join (sep : string) (parts : list string) : string :=
  match parts with
  | [] => ""
  | [p] => p
  | p :: rest => p +:+ sep +:+ join sep rest
  end.

(** [f"[{i}]\n{item}"] for each enumerated item, joined by
    ["\n\n---\n\n"] (lines 303-307). *)
Definition similar_docstrings_text (similar : list string) : string :=
  join (nl +:+ nl +:+ "---" +:+ nl +:+ nl)
       (map (λ p, "[" +:+ pretty (fst p) +:+ "]" +:+ nl +:+ snd p)
            (enumerate_from 0 similar)).

(** [ERROR_MESSAGE_TEMPLATE.format(error=..., response=...)]
    (lines 404-418, dedented and stripped). *)
Definition ERROR_MESSAGE_TEMPLATE (error response : string) : string :=
  "# Error Message" +:+ nl +:+ nl +:+
  "You previously attempted the prompt below, however, when" +:+ nl +:+
  "attempting to run `json.loads(response)` on the response you" +:+ nl +:+
  "previously provided the following error was raised:" +:+ nl +:+ nl +:+
  error +:+ nl +:+ nl +:+
  "The response you previously provided was:" +:+ nl +:+ nl +:+
  response.

(** ** The external collaborators and the state *)

(** A call to an external service, as the instrumentation of the model
    records it: the prompt sent to the completion gateway, or the docstring
    sent to the nearest-neighbour service. *)
Inductive call : Type :=
  | CompletionCall (prompt : string)
  | ClosestCall (docstring : string).

(** The external collaborators, over the state [World] of the outside world
    (language model, embedding index):
    - [hash_for_docstring] of [.indexer];
    - [get_completion_only(scope, prompt, api_key, **MODEL_KWARGS)], whose
      scope, key and model arguments are constants of the module;
    - [get_closest_functions(openai_api_key, docstring)], the stored texts
      closest to [docstring], which may read the registry;
    - [json.loads];
    - [INITIAL_PROMPT.format(task=task)],
      [PROMPT.format(task=task, docstring=docstring)] and
      [SIMILAR_PROMPT.format(base_docstring=..., similar_docstrings=...)]. *)
Class Collaborators (World : Type) : Type := {
  hash_for_docstring : string → string;
  get_completion_only : World → string → string * World;
  get_closest_functions : World → Registry → string → list string * World;
  json_loads : string → loads_result;
  INITIAL_PROMPT : string → string;
  PROMPT : string → string → string;
  SIMILAR_PROMPT : string → string → string
}.

Section Controller.

Context {World : Type} {collaborators : Collaborators World}.

(** The registry on disk, the set [already_traversing] of the current
    depth pass, the outside world, and the calls made so far (oldest
    first). *)
Record State : Type := mkState {
  registry : Registry;
  already_traversing : gset string;
  world : World;
  calls : list call
}.

(** A computation ends with a value, with an exception, or the model runs
    out of fuel (the source would still be running). *)
Inductive outcome (A : Type) : Type :=
  | Ok (a : A) (s : State)
  | Raise (e : exn) (s : State)
  | OutOfFuel.
Arguments Ok {A} a s.
Arguments Raise {A} e s.
Arguments OutOfFuel {A}.

Definition M (A : Type) : Type := State → outcome A.

Definition ret {A} (a : A) : M A := λ s, Ok a s.
Definition bind {A B} (m : M A) (f : A → M B) : M B :=
  λ s, match m s with
       | Ok a s' => f a s'
       | Raise e s' => Raise e s'
       | OutOfFuel => OutOfFuel
       end.
Definition raise {A} (e : exn) : M A := λ s, Raise e s.
Definition out_of_fuel {A} : M A := λ _, OutOfFuel.

Notation "'let*' x ':=' m 'in' k" := (bind m (λ x, k))
  (at level 10, x binder, m at level 100, k at level 200).
Notation "m '>>' k" := (bind m (λ _, k))
  (at level 100, k at level 200, right associativity).

Definition get_registry : M Registry := λ s, Ok (registry s) s.
Definition put_registry (r : Registry) : M unit :=
  λ s, Ok tt (mkState r (already_traversing s) (world s) (calls s)).

(** ** File-system primitives on the registry *)

(** [dir.mkdir(exist_ok=True)] *)
Definition mkdir_exist_ok (h : string) (dirs : gmap string (gset string))
  : gmap string (gset string) :=
  match dirs !! h with
  | Some _ => dirs
  | None => <[h := ∅]> dirs
  end.

(** [_get_docstring_registry_path] is the key [docstring_hash] of
    [docstrings]. *)

(** [_get_dependencies_registry_dir(docstring_hash)] (lines 256-260) *)
Definition _get_dependencies_registry_dir (docstring_hash : string) : M string :=
  let* r := get_registry in
  put_registry (mkRegistry (docstrings r)
                  (mkdir_exist_ok docstring_hash (dependencies r))
                  (dependents r)) >>
  ret docstring_hash.

(** [_get_dependents_registry_dir(docstring_hash)] (lines 263-267) *)
Definition _get_dependents_registry_dir (docstring_hash : string) : M string :=
  let* r := get_registry in
  put_registry (mkRegistry (docstrings r) (dependencies r)
                  (mkdir_exist_ok docstring_hash (dependents r))) >>
  ret docstring_hash.

(** [docstring_registry_path.unlink()] *)
Definition unlink_docstring (h : string) : M unit :=
  let* r := get_registry in
  match docstrings r !! h with
  | Some _ => put_registry (mkRegistry (delete h (docstrings r))
                              (dependencies r) (dependents r))
  | None => raise FileNotFoundError
  end.

(** [docstring_registry_path.exists()] *)
Definition docstring_exists (h : string) : M bool :=
  let* r := get_registry in
  ret (bool_decide (is_Some (docstrings r !! h))).

(** [shutil.rmtree(dependencies_registry_dir)] *)
Definition rmtree_dependencies (dir : string) : M unit :=
  let* r := get_registry in
  match dependencies r !! dir with
  | Some _ => put_registry (mkRegistry (docstrings r)
                              (delete dir (dependencies r)) (dependents r))
  | None => raise FileNotFoundError
  end.

(** [dependents_registry_dir.glob("*")]: the entries of the directory,
    none when it is missing.  The source gets them in the order of the
    directory scan, the model in the order of [elements]. *)
Definition glob_dependents (dir : string) : M (list string) :=
  let* r := get_registry in
  ret (elements (default ∅ (dependents r !! dir))).

(** [(dependent_dependency_dir / docstring_hash).unlink()] *)
Definition unlink_dependency (dir name : string) : M unit :=
  let* r := get_registry in
  match dependencies r !! dir with
  | Some entries =>
      if decide (name ∈ entries)
      then put_registry (mkRegistry (docstrings r)
                           (<[dir := entries ∖ {[name]}]> (dependencies r))
                           (dependents r))
      else raise FileNotFoundError
  | None => raise FileNotFoundError
  end.

(** [old_dependency_path.rename(new_dependency_path)], both in the
    directory [dir] *)
Definition rename_dependency (dir old new : string) : M unit :=
  let* r := get_registry in
  match dependencies r !! dir with
  | Some entries =>
      if decide (old ∈ entries)
      then put_registry (mkRegistry (docstrings r)
                           (<[dir := {[new]} ∪ entries ∖ {[old]}]> (dependencies r))
                           (dependents r))
      else raise FileNotFoundError
  | None => raise FileNotFoundError
  end.

(** [async with aiofiles.open(path, "w") as f: await f.write(contents)] *)
Definition write_docstring (h contents : string) : M unit :=
  let* r := get_registry in
  put_registry (mkRegistry (<[h := contents]> (docstrings r))
                  (dependencies r) (dependents r)).

(** [(dependents_registry_dir / parent).touch()] *)
Definition touch_dependent (dir name : string) : M unit :=
  let* r := get_registry in
  match dependents r !! dir with
  | Some entries =>
      put_registry (mkRegistry (docstrings r) (dependencies r)
                      (<[dir := {[name]} ∪ entries]> (dependents r)))
  | None => raise FileNotFoundError
  end.

(** [(dependencies_registry_dir / child_hash).touch()]: dividing a path
    by [None] is a [TypeError]. *)
Definition touch_dependency (dir : string) (child_hash : option string) : M unit :=
  match child_hash with
  | None => raise TypeError
  | Some name =>
      let* r := get_registry in
      match dependencies r !! dir with
      | Some entries =>
          put_registry (mkRegistry (docstrings r)
                          (<[dir := {[name]} ∪ entries]> (dependencies r))
                          (dependents r))
      | None => raise FileNotFoundError
      end
  end.

(** ** The collaborators as computations *)

Definition completion (prompt : string) : M string :=
  λ s, let (response, w) := get_completion_only (world s) prompt in
       Ok response (mkState (registry s) (already_traversing s) w
                      (calls s ++ [CompletionCall prompt])).

Definition closest_functions (docstring : string) : M (list string) :=
  λ s, let (found, w) := get_closest_functions (world s) (registry s) docstring in
       Ok found (mkState (registry s) (already_traversing s) w
                   (calls s ++ [ClosestCall docstring])).

Definition get_already_traversing : M (gset string) :=
  λ s, Ok (already_traversing s) s.
Definition set_already_traversing (t : gset string) : M unit :=
  λ s, Ok tt (mkState (registry s) t (world s) (calls s)).

(** ** Python operations on the parsed JSON *)

(** [data[key]] for a [str] key: only a [dict] can be subscripted by a
    string, a missing key is a [KeyError]. *)
Fixpoint dict_get (fields : list (string * json)) (key : string) : option json :=
  match fields with
  | [] => None
  | (k, v) :: rest => if decide (k = key) then Some v else dict_get rest key
  end.

Definition subscript (data : json) (key : string) : M json :=
  match data with
  | JObj fields =>
      match dict_get fields key with
      | Some v => ret v
      | None => raise KeyError
      end
  | _ => raise TypeError
  end.

(** [v is True] *)
Definition is_True (v : json) : bool :=
  match v with
  | JBool true => true
  | _ => false
  end.

(** [lst[index]]: an [int] (or a [bool], which is an [int]) indexes the
    list, anything else is a [TypeError]. *)
Definition list_subscript (l : list string) (index : json) : M string :=
  match index with
  | JInt i =>
      match python_index l i with
      | Some x => ret x
      | None => raise IndexError
      end
  | JBool b =>
      match python_index l (if b then 1 else 0) with
      | Some x => ret x
      | None => raise IndexError
      end
  | _ => raise TypeError
  end.

(** [for child_docstring in child_docstrings]: the items of a list, the
    keys of a dict, the characters of a string; other values cannot be
    iterated. *)
Definition iterate (data : json) : M (list json) :=
  match data with
  | JArr items => ret items
  | JObj fields => ret (map (λ kv, JStr (fst kv)) fields)
  | JStr s => ret (map (λ c, JStr (String c EmptyString)) (String.list_ascii_of_string s))
  | _ => raise TypeError
  end.

(** [hash_for_docstring] is a function of a [str]: a child that is not a
    string fails in its own coroutine, modelled as a [TypeError]. *)
Definition as_docstring (child : json) : M string :=
  match child with
  | JStr s => ret s
  | _ => raise TypeError
  end.

(** ** Control structure *)

(** [for x in xs: body(x)] *)
Fixpoint for_each {A} (xs : list A) (body : A → M unit) : M unit :=
  match xs with
  | [] => ret tt
  | x :: rest => body x >> for_each rest body
  end.

(** [await asyncio.gather] over the coroutines, run in list order. *)
Fixpoint gather {A} (coroutines : list (M A)) : M (list A) :=
  match coroutines with
  | [] => ret []
  | c :: rest =>
      let* x := c in
      let* xs := gather rest in
      ret (x :: xs)
  end.

(** ** [_run_with_error_loop] (lines 421-444)

    [run_loop] is the [while True] loop, [error_message] its variable. *)
Fixpoint run_loop (fuel : nat) (prompt prepend error_message : string) : M json :=
  match fuel with
  | O => out_of_fuel
  | S n =>
      let* response := completion (error_message +:+ prompt) in
      let response := prepend +:+ response in
      match json_loads response with
      | Parsed data => ret data
      | JSONDecodeError repr_e =>
          run_loop n prompt prepend
            (ERROR_MESSAGE_TEMPLATE repr_e response +:+ nl +:+ nl)
      end
  end.

Definition _run_with_error_loop (fuel : nat) (prompt prepend : string) : M json :=
  run_loop fuel prompt prepend "".

(** ** The similarity check (lines 293-324)

    [None]: no candidate is left, or the judge's ["same function"] is not
    [True]; [Some similar_docstring]: the text the judge points at. *)
Definition find_similar (fuel : nat) (docstring : string) : M (option string) :=
  let* found := closest_functions docstring in
  let similar_docstrings_to_check_against := list_remove_first docstring found in
  if bool_decide (length similar_docstrings_to_check_against ≠ 0%nat) then
    let* is_it_the_same_data :=
      _run_with_error_loop fuel
        (SIMILAR_PROMPT docstring
           (similar_docstrings_text similar_docstrings_to_check_against)) "" in
    let* same_function := subscript is_it_the_same_data "same function" in
    if is_True same_function then
      let* index_of_most_similar := subscript is_it_the_same_data "most similar" in
      let* similar_docstring :=
        list_subscript similar_docstrings_to_check_against index_of_most_similar in
      ret (Some similar_docstring)
    else ret None
  else ret None.

(** How a block that contains a [return] ends: with the value of the
    function, or by falling through to the next statement. *)
Inductive block_end : Type :=
  | Returned (value : option string)
  | FellThrough.

(** ** The similar docstring is the parent (lines 327-337)

    The [return None] is inside the [for] loop. *)
Definition prune_dependents (docstring_hash : string) (paths : list string)
  : M block_end :=
  match paths with
  | [] => ret FellThrough
  | path :: _ =>
      let dependent := stem path in
      let* dependent_dependency_dir := _get_dependencies_registry_dir dependent in
      unlink_dependency dependent_dependency_dir docstring_hash >>
      ret (Returned None)
  end.

Definition duplicate_of_parent (docstring_hash : string) : M block_end :=
  unlink_docstring docstring_hash >>
  rmtree_dependencies docstring_hash >>
  rmtree_dependencies docstring_hash >>
  let* paths := glob_dependents docstring_hash in
  prune_dependents docstring_hash paths.

(** ** The similar docstring is stored (lines 345-355) *)
Definition rewire_dependent (docstring_hash similar_docstring_hash path : string)
  : M unit :=
  let dependent := stem path in
  let* dependent_dependency_dir := _get_dependencies_registry_dir dependent in
  rename_dependency dependent_dependency_dir docstring_hash similar_docstring_hash.

Definition duplicate_of_existing (docstring_hash similar_docstring_hash : string)
  : M unit :=
  unlink_docstring docstring_hash >>
  rmtree_dependencies docstring_hash >>
  let* paths := glob_dependents docstring_hash in
  for_each paths (rewire_dependent docstring_hash similar_docstring_hash).

(** ** Persist, expand and link (lines 367-401)

    [expand_child] is the recursive call on a child docstring. *)
Definition persist (docstring : string) (parent : option string) : M unit :=
  let docstring_hash := hash_for_docstring docstring in
  write_docstring docstring_hash (docstring +:+ nl) >>
  match parent with
  | Some p => touch_dependent docstring_hash p
  | None => ret tt
  end.

Definition link (docstring_hash : string)
    (child_docstring_hashes : list (option string)) : M unit :=
  for_each child_docstring_hashes (touch_dependency docstring_hash).

Definition persist_expand_link (fuel : nat)
    (expand_child : string → M (option string))
    (task docstring : string) (parent : option string) : M (option string) :=
  let docstring_hash := hash_for_docstring docstring in
  persist docstring parent >>
  let* child_docstrings := _run_with_error_loop fuel (PROMPT task docstring) "" in
  let* children := iterate child_docstrings in
  let* child_docstring_hashes :=
    gather (map (λ child, let* child_docstring := as_docstring child in
                          expand_child child_docstring) children) in
  link docstring_hash child_docstring_hashes >>
  ret (Some docstring_hash).

(** ** [_generate_docstrings] (lines 270-401) *)
Fixpoint _generate_docstrings (fuel : nat) (task docstring : string)
    (max_depth : Z) (parent : option string) (current_depth : Z)
  : M (option string) :=
  match fuel with
  | O => out_of_fuel
  | S n =>
      let docstring_hash := hash_for_docstring docstring in
      let* traversing := get_already_traversing in
      if decide (docstring_hash ∈ traversing) then ret (Some docstring_hash)
      else
        set_already_traversing ({[docstring_hash]} ∪ traversing) >>
        if bool_decide (current_depth >= max_depth) then ret (Some docstring_hash)
        else
          _get_dependents_registry_dir docstring_hash >>
          _get_dependencies_registry_dir docstring_hash >>
          let novel :=
            persist_expand_link n
              (λ child_docstring,
                 _generate_docstrings n task child_docstring max_depth
                   (Some docstring_hash) (current_depth + 1))
              task docstring parent in
          let* similar := find_similar n docstring in
          match similar with
          | None => novel
          | Some similar_docstring =>
              let similar_docstring_hash := hash_for_docstring similar_docstring in
              let* pruned :=
                (if decide (Some similar_docstring_hash = parent)
                 then duplicate_of_parent docstring_hash
                 else ret FellThrough) in
              match pruned with
              | Returned value => ret value
              | FellThrough =>
                  let* stored := docstring_exists similar_docstring_hash in
                  if stored then
                    duplicate_of_existing docstring_hash similar_docstring_hash >>
                    _generate_docstrings n task similar_docstring max_depth
                      parent current_depth
                  else novel
              end
          end
  end.

(** ** [generate_docstrings_tree] (lines 189-218)

    [passes] is the [for i in range(max_depth)] loop with its variable
    [root_docstring_hash]; every pass gets a fresh [already_traversing]. *)
Fixpoint passes (fuel : nat) (task root_docstring : string) (bounds : list Z)
    (root_docstring_hash : option string) : M (option string) :=
  match bounds with
  | [] => ret root_docstring_hash
  | i :: rest =>
      set_already_traversing ∅ >>
      let* h := _generate_docstrings fuel task root_docstring i None 0 in
      passes fuel task root_docstring rest h
  end.

(** [range(max_depth)] *)
Definition range (max_depth : Z) : list Z :=
  map Z.of_nat (seq 0 (Z.to_nat max_depth)).

Definition generate_docstrings_tree (fuel : nat) (task : string) (max_depth : Z)
  : M (option Tree) :=
  let* root_docstring := completion (INITIAL_PROMPT task) in
  let root_docstring_hash : option string := None in
  let tree : option Tree := None in
  let* root_docstring_hash :=
    passes fuel task root_docstring (range max_depth) root_docstring_hash in
  match root_docstring_hash with
  | None => raise AssertionError
  | Some _ => ret tree
  end.

End Controller.

Arguments Ok {World A} a s.
Arguments Raise {World A} e s.
Arguments OutOfFuel {World A}.

(** ** Stub collaborators for concrete scenarios *)

Definition dq : string := String (Ascii.ascii_of_nat 34) EmptyString.
Definition quoted (s : string) : string := dq +:+ s +:+ dq.

(** A gateway stub that plays a script: every call returns the next
    response of the script, whatever the prompt (and the empty string once
    the script is over). *)
Definition scripted_completion (script : list string) (prompt : string)
  : string * list string :=
  match script with
  | [] => ("", [])
  | response :: rest => (response, rest)
  end.

(** A nearest-neighbour stub: a fixed answer per docstring. *)
Definition fixed_neighbours (answer : string → list string)
    (script : list string) (r : Registry) (docstring : string)
  : list string * list string :=
  (answer docstring, script).

(** [json.loads] on the texts of a table; any other text is malformed. *)
Definition stub_decode_error : string :=
  "JSONDecodeError('Expecting value: line 1 column 1 (char 0)')".

Fixpoint loads_from (table : list (string * json)) (text : string) : loads_result :=
  match table with
  | [] => JSONDecodeError stub_decode_error
  | (t, data) :: rest => if decide (t = text) then Parsed data else loads_from rest text
  end.

(** The JSON text of a verdict of the judge and its parsed value. *)
Definition verdict_text (most_similar same_function : string) : string :=
  "{" +:+ quoted "most similar" +:+ ": " +:+ most_similar +:+ ", " +:+
  quoted "same function" +:+ ": " +:+ same_function +:+ "}".

Definition verdict (most_similar same_function : json) : json :=
  JObj [("most similar", most_similar); ("same function", same_function)].

Definition stub_table : list (string * json) :=
  [ ("[]", JArr []);
    (verdict_text "0" "true", verdict (JInt 0) (JBool true));
    (verdict_text "5" "true", verdict (JInt 5) (JBool true));
    (verdict_text "0" (quoted "unknown"), verdict (JInt 0) (JStr "unknown")) ].

(** An injective stand-in for the content hash. *)
Definition stub_hash (docstring : string) : string := "#" +:+ docstring.

Definition stub_collaborators (answer : string → list string)
  : Collaborators (list string) := {|
  hash_for_docstring := stub_hash;
  get_completion_only := scripted_completion;
  get_closest_functions := fixed_neighbours answer;
  json_loads := loads_from stub_table;
  INITIAL_PROMPT := λ task, "task: " +:+ task;
  PROMPT := λ task docstring, "children of: " +:+ docstring;
  SIMILAR_PROMPT := λ base similar, "compare: " +:+ base +:+ nl +:+ similar
|}.

Definition no_neighbours (docstring : string) : list string := [].

(** The end-to-end scenario: the gateway answers the root text, then an
    empty child list; nothing is close to anything. *)
Definition e2e_root : string := "Reverses the characters of a string.".
Definition e2e_state : State :=
  mkState empty_registry ∅ [e2e_root; "[]"] [].

(** The same scenario with a gateway that answers by the prompt: the root
    text to the initial prompt, an empty child list to any other; its world
    counts the calls. *)
Definition answering_completion (w : nat) (prompt : string) : string * nat :=
  (if String.prefix "task: " prompt then e2e_root else "[]", S w).

Definition e2e_collaborators : Collaborators nat := {|
  hash_for_docstring := stub_hash;
  get_completion_only := answering_completion;
  get_closest_functions := λ w r docstring, ([], w);
  json_loads := loads_from stub_table;
  INITIAL_PROMPT := λ task, "task: " +:+ task;
  PROMPT := λ task docstring, "children of: " +:+ docstring;
  SIMILAR_PROMPT := λ base similar, "compare: " +:+ base +:+ nl +:+ similar
|}.

(** The root of the scenario, entered: marked, with its edge directories. *)
Definition e2e_entered : State :=
  mkState (mkRegistry ∅ {[ stub_hash e2e_root := ∅ ]} {[ stub_hash e2e_root := ∅ ]})
          {[ stub_hash e2e_root ]} ["[]"] [].

(** A gateway whose first answer is malformed. *)
Definition repair_state : State :=
  mkState empty_registry ∅ ["oops"; "[]"] [].

(** Self-reference scenario: [B] is stored as a child of [A] and is
    expanded again under [A]; [A] is the only text close to [B] and the
    judge says they are the same function. *)
Definition prune_neighbours (docstring : string) : list string :=
  if decide (docstring = "B") then ["A"] else [].
Definition prune_registry : Registry :=
  mkRegistry {[ "#A" := "A" +:+ nl; "#B" := "B" +:+ nl ]}
             {[ "#A" := {[ "#B" ]}; "#B" := ∅ ]}
             {[ "#A" := ∅; "#B" := {[ "#A" ]} ]}.
Definition prune_state : State :=
  mkState prune_registry {[ "#A" ]} [verdict_text "0" "true"] [].

(** Merge scenarios: [Y] is stored as a child of [Z] and is expanded again
    under [Z]; [X] is the only text close to [Y] and the judge says they
    are the same function.  In the first registry [X] is not stored, in the
    second it is. *)
Definition merge_neighbours (docstring : string) : list string :=
  if decide (docstring = "Y") then ["X"] else [].
Definition merge_registry_absent : Registry :=
  mkRegistry {[ "#Y" := "Y" +:+ nl; "#Z" := "Z" +:+ nl ]}
             {[ "#Y" := ∅; "#Z" := {[ "#Y" ]} ]}
             {[ "#Y" := {[ "#Z" ]}; "#Z" := ∅ ]}.
Definition merge_registry_stored : Registry :=
  mkRegistry {[ "#X" := "X" +:+ nl; "#Y" := "Y" +:+ nl; "#Z" := "Z" +:+ nl ]}
             {[ "#X" := ∅; "#Y" := ∅; "#Z" := {[ "#Y" ]} ]}
             {[ "#X" := ∅; "#Y" := {[ "#Z" ]}; "#Z" := ∅ ]}.
Definition merge_state (r : Registry) : State :=
  mkState r {[ "#Z" ]} [verdict_text "0" "true"; "[]"] [].

(** Judge scenarios: [A] is the only text close to [B]; the judge answers
    with an index out of range, or with a ["same function"] field that is
    not a boolean. *)
Definition judge_registry : Registry :=
  mkRegistry {[ "#A" := "A" +:+ nl ]} {[ "#A" := ∅ ]} {[ "#A" := ∅ ]}.
Definition judge_state (script : list string) : State :=
  mkState judge_registry ∅ script [].

(** ** Vocabulary of the statements *)

(** The state once a gateway call with [prompt] has returned. *)
Definition after_completion {World} {collaborators : Collaborators World}
    (prompt : string) (s : State) : State :=
  mkState (registry s) (already_traversing s)
          (snd (get_completion_only (world s) prompt))
          (calls s ++ [CompletionCall prompt]).

(** The state once [docstring_hash] is in [already_traversing]. *)
Definition marked {World} (docstring_hash : string) (s : State (World:=World))
  : State :=
  mkState (registry s) ({[docstring_hash]} ∪ already_traversing s)
          (world s) (calls s).

(** The state with [dirs] as the directories under [dependencies/]. *)
Definition with_dependencies {World} (dirs : gmap string (gset string))
    (s : State (World:=World)) : State :=
  mkState (mkRegistry (docstrings (registry s)) dirs (dependents (registry s)))
          (already_traversing s) (world s) (calls s).

(** The state once a node is marked and its two edge directories exist
    (lines 283-291). *)
Definition entered {World} (docstring_hash : string) (s : State (World:=World))
  : State :=
  mkState (mkRegistry (docstrings (registry s))
             (mkdir_exist_ok docstring_hash (dependencies (registry s)))
             (mkdir_exist_ok docstring_hash (dependents (registry s))))
          ({[docstring_hash]} ∪ already_traversing s) (world s) (calls s).

(** The recursive call of [_generate_docstrings] on a child. *)
Definition expand_child {World} {collaborators : Collaborators World}
    (fuel : nat) (task : string) (max_depth : Z) (docstring_hash : string)
    (current_depth : Z) (child_docstring : string) : M (option string) :=
  _generate_docstrings fuel task child_docstring max_depth
    (Some docstring_hash) (current_depth + 1).

(** What [_generate_docstrings] does with the answer of the similarity
    check (lines 326-401), the statements of lines 279-291 being done. *)
Definition after_similar {World} {collaborators : Collaborators World}
    (fuel : nat) (task docstring : string) (max_depth : Z)
    (parent : option string) (current_depth : Z) (similar : option string)
  : M (option string) :=
  let docstring_hash := hash_for_docstring docstring in
  let novel :=
    persist_expand_link fuel
      (expand_child fuel task max_depth docstring_hash current_depth)
      task docstring parent in
  match similar with
  | None => novel
  | Some similar_docstring =>
      let similar_docstring_hash := hash_for_docstring similar_docstring in
      bind (if decide (Some similar_docstring_hash = parent)
            then duplicate_of_parent docstring_hash
            else ret FellThrough)
        (λ pruned,
           match pruned with
           | Returned value => ret value
           | FellThrough =>
               bind (docstring_exists similar_docstring_hash)
                 (λ stored : bool,
                    if stored then
                      bind (duplicate_of_existing docstring_hash similar_docstring_hash)
                        (λ _, _generate_docstrings fuel task similar_docstring
                                max_depth parent current_depth)
                    else novel)
           end)
  end.

(** An outcome that left the registry and [already_traversing] of [s] as
    they were, and a computation that always does. *)
Definition untouched {World A} (s : State (World:=World))
    (o : outcome (World:=World) A) : Prop :=
  match o with
  | Ok _ s' | Raise _ s' =>
      registry s' = registry s ∧ already_traversing s' = already_traversing s
  | OutOfFuel => True
  end.

Definition io_only {World A} (m : M (World:=World) A) : Prop :=
  ∀ s, untouched s (m s).

(** A computation that, started with [h0] in [already_traversing], ends (when
    it ends with a value) with [h0] still there and the stored text of [h0]
    as it was. *)
Definition keeps {World A} (h0 : string) (m : M (World:=World) A) : Prop :=
  ∀ s, h0 ∈ already_traversing s →
    match m s with
    | Ok _ s' =>
        h0 ∈ already_traversing s'
        ∧ docstrings (registry s') !! h0 = docstrings (registry s) !! h0
    | _ => True
    end.

(** A computation that never ends with the value [None]. *)
Definition yields_id {World} (m : M (World:=World) (option string)) : Prop :=
  ∀ s r s', m s = Ok r s' → is_Some r.

(** The registry once [docstring] is stored as a node without edges. *)
Definition store_leaf {World} {collaborators : Collaborators World}
    (docstring : string) (r : Registry) : Registry :=
  mkRegistry
    (<[hash_for_docstring docstring := docstring +:+ nl]> (docstrings r))
    (mkdir_exist_ok (hash_for_docstring docstring) (dependencies r))
    (mkdir_exist_ok (hash_for_docstring docstring) (dependents r)).


(** A computation during which [already_traversing] loses no element,
    whether it ends with a value or with an exception. *)
Definition grows {World A} (m : M (World:=World) A) : Prop :=
  ∀ s, match m s with
       | Ok _ s' | Raise _ s' => already_traversing s ⊆ already_traversing s'
       | OutOfFuel => True
       end.

(** A computation that leaves everything but [docstrings/] and
    [dependencies/] as it was, whether it ends with a value or with an
    exception. *)
Definition spares_dependents {World A} (m : M (World:=World) A) : Prop :=
  ∀ s, match m s with
       | Ok _ s' | Raise _ s' =>
           dependents (registry s') = dependents (registry s)
           ∧ already_traversing s' = already_traversing s
           ∧ world s' = world s
           ∧ calls s' = calls s
       | OutOfFuel => True
       end.

(** ** [_dependency_walk] (lines 221-245)

    The walk raises exceptions the expansion does not have: they are added
    to the ones of [exn]. *)
Inductive walk_exn : Type :=
  | Plain (e : exn)
  | IsADirectoryError
  | DecodeError (repr_e : string)
  | ValueError.

Section DependencyWalk.

Context {World : Type} {collaborators : Collaborators World}.

Inductive walk_outcome (A : Type) : Type :=
  | WalkOk (a : A) (s : State (World:=World))
  | WalkRaise (e : walk_exn) (s : State (World:=World))
  | WalkOutOfFuel.
Arguments WalkOk {A} a s.
Arguments WalkRaise {A} e s.
Arguments WalkOutOfFuel {A}.

Definition walk_bind {A B} (m : State (World:=World) → walk_outcome A)
    (f : A → State (World:=World) → walk_outcome B) : State (World:=World) → walk_outcome B :=
  λ s, match m s with
       | WalkOk a s' => f a s'
       | WalkRaise e s' => WalkRaise e s'
       | WalkOutOfFuel => WalkOutOfFuel
       end.

(** A computation of the expansion, run inside the walk. *)
Definition walk_lift {A} (m : M A) : State (World:=World) → walk_outcome A :=
  λ s, match m s with
       | Ok a s' => WalkOk a s'
       | Raise e s' => WalkRaise (Plain e) s'
       | OutOfFuel => WalkOutOfFuel
       end.

(** [aiofiles.open(dependencies_registry_path, "r")] followed by
    [f.read()]: the path is a key of [dependencies], that is a directory
    when it exists, and opening a directory for reading is an
    [IsADirectoryError] (on POSIX). *)
Definition open_read_dependencies (path : string) : State (World:=World) → walk_outcome string :=
  λ s, match dependencies (registry s) !! path with
       | Some _ => WalkRaise IsADirectoryError s
       | None => WalkRaise (Plain FileNotFoundError) s
       end.

(** [asyncio.gather] over the sub-walks, run in list order. *)
Fixpoint walk_gather {A} (coroutines : list (State (World:=World) → walk_outcome A))
  : State (World:=World) → walk_outcome (list A) :=
  match coroutines with
  | [] => λ s, WalkOk [] s
  | c :: rest =>
      walk_bind c (λ x, walk_bind (walk_gather rest) (λ xs s, WalkOk (x :: xs) s))
  end.

(** [try: ... except FileNotFoundError as e: raise ValueError(...) from e] *)
Definition not_found_as_value_error {A} (m : State (World:=World) → walk_outcome A)
  : State (World:=World) → walk_outcome A :=
  λ s, match m s with
       | WalkRaise (Plain FileNotFoundError) s' => WalkRaise ValueError s'
       | o => o
       end.

Fixpoint _dependency_walk (fuel : nat) (docstring_hash : string)
    (max_depth current_depth : Z) : State (World:=World) → walk_outcome Tree :=
  match fuel with
  | O => λ _, WalkOutOfFuel
  | S n =>
      walk_bind (walk_lift (_get_dependencies_registry_dir docstring_hash))
        (λ dependencies_registry_path,
      walk_bind (open_read_dependencies dependencies_registry_path)
        (λ contents,
           match json_loads contents with
           | JSONDecodeError repr_e => λ s, WalkRaise (DecodeError repr_e) s
           | Parsed dependencies =>
               walk_bind (walk_lift (iterate dependencies))
                 (λ items,
               walk_bind
                 (not_found_as_value_error
                    (walk_gather
                       (map (λ dependency,
                               walk_bind (walk_lift (as_docstring dependency))
                                 (λ dependency_hash,
                                    _dependency_walk n dependency_hash max_depth
                                      (current_depth + 1)))
                            items)))
                 (λ sub_trees s, WalkOk (TreeNode docstring_hash sub_trees) s))
           end))
  end.

End DependencyWalk.

Arguments WalkOk {World A} a s.
Arguments WalkRaise {World A} e s.
Arguments WalkOutOfFuel {World A}.

(** ** More stub collaborators *)

(** More texts for the [json.loads] stub: an empty object, a verdict with a
    negative index, [null], and the one-element lists of the texts [A] and
    [C]. *)
Definition extended_table : list (string * json) :=
  stub_table ++
  [ ("{}", JObj []);
    (verdict_text "-1" "true", verdict (JInt (-1)) (JBool true));
    ("null", JNull);
    ("[" +:+ quoted "A" +:+ "]", JArr [JStr "A"]);
    ("[" +:+ quoted "C" +:+ "]", JArr [JStr "C"]) ].

Definition extended_collaborators (answer : string → list string)
  : Collaborators (list string) := {|
  hash_for_docstring := stub_hash;
  get_completion_only := scripted_completion;
  get_closest_functions := fixed_neighbours answer;
  json_loads := loads_from extended_table;
  INITIAL_PROMPT := λ task, "task: " +:+ task;
  PROMPT := λ task docstring, "children of: " +:+ docstring;
  SIMILAR_PROMPT := λ base similar, "compare: " +:+ base +:+ nl +:+ similar
|}.

(** A [json.loads] stub for which no text is well formed. *)
Definition never_parsing_collaborators : Collaborators (list string) := {|
  hash_for_docstring := stub_hash;
  get_completion_only := scripted_completion;
  get_closest_functions := fixed_neighbours no_neighbours;
  json_loads := loads_from [];
  INITIAL_PROMPT := λ task, "task: " +:+ task;
  PROMPT := λ task docstring, "children of: " +:+ docstring;
  SIMILAR_PROMPT := λ base similar, "compare: " +:+ base +:+ nl +:+ similar
|}.

(** [B] has two neighbours, [A] and [C]. *)
Definition two_neighbours (docstring : string) : list string :=
  if decide (docstring = "B") then ["A"; "C"] else [].

(** The node [A] entered (marked, with its edge directories) and a gateway
    about to answer with the given script. *)
Definition entered_A (script : list string) : State :=
  mkState (mkRegistry ∅ {[ "#A" := ∅ ]} {[ "#A" := ∅ ]}) {[ "#A" ]} script [].

(** The node [A] entered in a pass that has already traversed [C], a stored
    child of some [P]; the gateway is about to name [C] as the child of
    [A]. *)
Definition shared_child_state : State :=
  mkState (mkRegistry {[ "#C" := "C" +:+ nl ]}
                      {[ "#A" := ∅; "#C" := ∅ ]}
                      {[ "#A" := ∅; "#C" := {[ "#P" ]} ]})
          {[ "#A"; "#C" ]} ["[" +:+ quoted "C" +:+ "]"] [].

(** * Properties *)

Section Properties.

Context {World : Type} {collaborators : Collaborators World}.

Implicit Types (s : State (World:=World)) (h docstring task : string).

Lemma bind_Ok {A B} (m : M A) (f : A → M B) s a s' :
  m s = Ok a s' → bind m f s = f a s'.
Proof. unfold bind. by intros ->. Qed.

Lemma bind_Raise {A B} (m : M A) (f : A → M B) s e s' :
  m s = Raise e s' → bind m f s = Raise e s'.
Proof. unfold bind. by intros ->. Qed.

Lemma bind_ext {A B} (m : M A) (f g : A → M B) s :
  (∀ a s', f a s' = g a s') → bind m f s = bind m g s.
Proof. intros Hfg. unfold bind. by destruct (m s). Qed.

Lemma state_eta s :
  mkState (registry s) (already_traversing s) (world s) (calls s) = s.
Proof. by destruct s. Qed.

Lemma marked_already h s : h ∈ already_traversing s → marked h s = s.
Proof.
  intros Hin. destruct s as [r t w c]; unfold marked; cbn in *.
  f_equal. by apply subseteq_union_1_L, singleton_subseteq_l.
Qed.

(** Lines 279-287: a node at or beyond the depth bound is only marked. *)
Lemma generate_docstrings_at_bound fuel task docstring max_depth parent current_depth s :
  max_depth <= current_depth →
  _generate_docstrings (S fuel) task docstring max_depth parent current_depth s
  = Ok (Some (hash_for_docstring docstring)) (marked (hash_for_docstring docstring) s).
Proof.
  intros Hdepth. simpl. unfold bind, get_already_traversing.
  destruct (decide _) as [Hin|Hnot].
  - unfold ret. by rewrite marked_already.
  - unfold set_already_traversing.
    rewrite bool_decide_eq_true_2 by lia. reflexivity.
Qed.

(** C7: a node whose expansion starts with [current_depth >= max_depth]
    returns its id; the registry, the outside world and the list of calls to
    the resolver and the gateway are those of the start (nothing is stored,
    nobody is consulted, no child is recorded), only [already_traversing]
    gains the id.  With [max_depth = 0] this is every node, whatever the
    gateway would have answered. *)
Theorem depth_bound_respected fuel task docstring max_depth parent current_depth s :
  max_depth <= current_depth →
  _generate_docstrings (S fuel) task docstring max_depth parent current_depth s
  = Ok (Some (hash_for_docstring docstring))
       (mkState (registry s)
                ({[hash_for_docstring docstring]} ∪ already_traversing s)
                (world s) (calls s)).
Proof. intros Hdepth. by apply generate_docstrings_at_bound. Qed.

(** ** The driver without passes *)

Lemma range_nonpositive max_depth : max_depth <= 0 → range max_depth = [].
Proof.
  intros Hle. unfold range.
  replace (Z.to_nat max_depth) with 0%nat by lia. reflexivity.
Qed.

(** C9: with [max_depth <= 0] the driver makes one gateway call (the root
    docstring), runs no pass, leaves the registry and [already_traversing]
    as they were and raises [AssertionError]. *)
Theorem driver_without_passes fuel task max_depth s :
  max_depth <= 0 →
  generate_docstrings_tree fuel task max_depth s
  = Raise AssertionError
      (mkState (registry s) (already_traversing s)
               (snd (get_completion_only (world s) (INITIAL_PROMPT task)))
               (calls s ++ [CompletionCall (INITIAL_PROMPT task)])).
Proof.
  intros Hle. unfold generate_docstrings_tree, bind, completion.
  destruct (get_completion_only (world s) (INITIAL_PROMPT task)) as [root w].
  rewrite range_nonpositive by done. reflexivity.
Qed.

(** ** The repair loop *)

Lemma string_app_assoc (a b c : string) : (a +:+ b) +:+ c = a +:+ (b +:+ c).
Proof.
  induction a as [|x a IH]; [done|].
  change (String x ((a +:+ b) +:+ c) = String x (a +:+ (b +:+ c))).
  by f_equal.
Qed.

(** Two turns of the loop, the second prompt as the loop builds it. *)
Lemma run_with_error_loop_second_parse fuel prompt prepend s r1 w1 repr_e r2 w2 data :
  get_completion_only (world s) prompt = (r1, w1) →
  json_loads (prepend +:+ r1) = JSONDecodeError repr_e →
  get_completion_only w1
    ((ERROR_MESSAGE_TEMPLATE repr_e (prepend +:+ r1) +:+ nl +:+ nl) +:+ prompt)
  = (r2, w2) →
  json_loads (prepend +:+ r2) = Parsed data →
  _run_with_error_loop (S (S fuel)) prompt prepend s
  = Ok data
      (mkState (registry s) (already_traversing s) w2
         (calls s ++
          [CompletionCall prompt;
           CompletionCall
             ((ERROR_MESSAGE_TEMPLATE repr_e (prepend +:+ r1) +:+ nl +:+ nl)
              +:+ prompt)])).
Proof.
  intros Hfirst Hbad Hsecond Hgood.
  unfold _run_with_error_loop. cbn [run_loop].
  unfold bind at 1. unfold completion at 1.
  change ("" +:+ prompt) with prompt.
  rewrite Hfirst, Hbad.
  unfold bind, completion. cbn [world registry already_traversing calls].
  rewrite Hsecond, Hgood. unfold ret.
  by rewrite <- app_assoc.
Qed.

(** The text of the retry prompt, piece by piece. *)
Lemma retry_prompt_text repr_e response prompt :
  (ERROR_MESSAGE_TEMPLATE repr_e response +:+ nl +:+ nl) +:+ prompt
  = "# Error Message" +:+ nl +:+ nl +:+
    "You previously attempted the prompt below, however, when" +:+ nl +:+
    "attempting to run `json.loads(response)` on the response you" +:+ nl +:+
    "previously provided the following error was raised:" +:+ nl +:+ nl +:+
    repr_e +:+ nl +:+ nl +:+
    "The response you previously provided was:" +:+ nl +:+ nl +:+
    response +:+ nl +:+ nl +:+ prompt.
Proof. unfold ERROR_MESSAGE_TEMPLATE. by rewrite !string_app_assoc. Qed.

(** C8: when the first response does not parse and the second does,
    [_run_with_error_loop] returns the parsed second response after exactly
    two gateway calls.  The second prompt is, in this order: the heading and
    the sentence of the error block, the [repr] of the first parse
    exception, the sentence that introduces the response, the malformed
    first response, two newlines, and the original prompt. *)
Theorem malformed_response_recovery fuel prompt prepend s r1 w1 repr_e
    second_prompt r2 w2 data :
  get_completion_only (world s) prompt = (r1, w1) →
  json_loads (prepend +:+ r1) = JSONDecodeError repr_e →
  second_prompt
  = "# Error Message" +:+ nl +:+ nl +:+
    "You previously attempted the prompt below, however, when" +:+ nl +:+
    "attempting to run `json.loads(response)` on the response you" +:+ nl +:+
    "previously provided the following error was raised:" +:+ nl +:+ nl +:+
    repr_e +:+ nl +:+ nl +:+
    "The response you previously provided was:" +:+ nl +:+ nl +:+
    (prepend +:+ r1) +:+ nl +:+ nl +:+ prompt →
  get_completion_only w1 second_prompt = (r2, w2) →
  json_loads (prepend +:+ r2) = Parsed data →
  _run_with_error_loop (S (S fuel)) prompt prepend s
  = Ok data
      (mkState (registry s) (already_traversing s) w2
         (calls s ++ [CompletionCall prompt; CompletionCall second_prompt])).
Proof.
  intros Hfirst Hbad Htext Hsecond Hgood.
  rewrite <- (retry_prompt_text repr_e (prepend +:+ r1) prompt) in Htext.
  subst second_prompt.
  by apply (run_with_error_loop_second_parse fuel prompt prepend s r1 w1 repr_e r2 w2).
Qed.

Lemma completion_eq prompt s :
  completion prompt s
  = Ok (get_completion_only (world s) prompt).1 (after_completion prompt s).
Proof.
  unfold completion, after_completion.
  by destruct (get_completion_only (world s) prompt).
Qed.

(** The loop when the first response parses. *)
Lemma run_with_error_loop_first_parse fuel prompt s data :
  json_loads (get_completion_only (world s) prompt).1 = Parsed data →
  _run_with_error_loop (S fuel) prompt "" s = Ok data (after_completion prompt s).
Proof.
  intros Hparsed. unfold _run_with_error_loop. cbn [run_loop].
  unfold bind, completion, after_completion.
  change ("" +:+ prompt) with prompt.
  destruct (get_completion_only (world s) prompt) as [response w].
  change ("" +:+ response) with response. cbn in *. by rewrite Hparsed.
Qed.

(** ** Linking the children *)

Lemma for_each_cons {A} (x : A) xs (body : A → M unit) s :
  for_each (x :: xs) body s = bind (body x) (λ _, for_each xs body) s.
Proof. reflexivity. Qed.

Lemma touch_dependency_Some h name s entries :
  dependencies (registry s) !! h = Some entries →
  touch_dependency h (Some name) s
  = Ok tt (with_dependencies (<[h := {[name]} ∪ entries]> (dependencies (registry s))) s).
Proof.
  intros Hdir. unfold touch_dependency, bind, get_registry. by rewrite Hdir.
Qed.

(** The loop of lines 398-399 on ids that are all present. *)
Lemma link_all_present h ids s entries :
  dependencies (registry s) !! h = Some entries →
  link h (Some <$> ids) s
  = Ok tt (with_dependencies
             (<[h := list_to_set ids ∪ entries]> (dependencies (registry s))) s).
Proof.
  unfold link. revert s entries.
  induction ids as [|name ids IH]; intros s entries Hdir.
  - cbn. unfold ret. f_equal. unfold with_dependencies.
    rewrite (left_id_L ∅ (∪)), insert_id by done.
    by destruct s as [[] ? ? ?].
  - rewrite fmap_cons, for_each_cons.
    erewrite bind_Ok by by apply touch_dependency_Some.
    erewrite IH by (cbn; apply lookup_insert_eq).
    f_equal. unfold with_dependencies; cbn.
    rewrite insert_insert_eq. do 3 f_equal. set_solver.
Qed.


(** ** Computations that only talk to the outside world *)

Lemma io_only_ret {A} (a : A) : io_only (World:=World) (ret a).
Proof. by intros s. Qed.

Lemma io_only_raise {A} e : io_only (World:=World) (A:=A) (raise e).
Proof. by intros s. Qed.

Lemma io_only_bind {A B} (m : M (World:=World) A) (f : A → M B) :
  io_only m → (∀ a, io_only (f a)) → io_only (bind m f).
Proof.
  intros Hm Hf s. unfold bind. specialize (Hm s).
  destruct (m s) as [a s1|e s1|]; cbn in *; [|done..].
  specialize (Hf a s1). destruct Hm as [Hr Ht].
  destruct (f a s1); cbn in *; [|  |done]; by rewrite <- Hr, <- Ht.
Qed.

Lemma io_only_completion prompt : io_only (completion prompt).
Proof.
  intros s. unfold completion.
  by destruct (get_completion_only (world s) prompt).
Qed.

Lemma io_only_closest_functions docstring : io_only (closest_functions docstring).
Proof.
  intros s. unfold closest_functions.
  by destruct (get_closest_functions (world s) (registry s) docstring).
Qed.

Lemma io_only_run_loop fuel prompt prepend error_message :
  io_only (run_loop fuel prompt prepend error_message).
Proof.
  revert error_message. induction fuel as [|n IH]; intros error_message.
  - by intros s.
  - cbn [run_loop]. apply io_only_bind; [apply io_only_completion|].
    intros response. destruct (json_loads _); [apply io_only_ret|apply IH].
Qed.

Lemma io_only_subscript data key : io_only (World:=World) (subscript data key).
Proof.
  destruct data; cbn; try apply io_only_raise.
  destruct (dict_get _ _); [apply io_only_ret|apply io_only_raise].
Qed.

Lemma io_only_list_subscript l index : io_only (World:=World) (list_subscript l index).
Proof.
  destruct index; cbn; try apply io_only_raise;
    destruct (python_index _ _); first [apply io_only_ret|apply io_only_raise].
Qed.

Lemma io_only_find_similar fuel docstring : io_only (find_similar fuel docstring).
Proof.
  unfold find_similar.
  apply io_only_bind; [apply io_only_closest_functions|]. intros found.
  case_bool_decide; [|apply io_only_ret].
  apply io_only_bind; [apply io_only_run_loop|]. intros data.
  apply io_only_bind; [apply io_only_subscript|]. intros same.
  destruct (is_True same); [|apply io_only_ret].
  apply io_only_bind; [apply io_only_subscript|]. intros index.
  apply io_only_bind; [apply io_only_list_subscript|]. intros similar.
  apply io_only_ret.
Qed.

(** ** Entering a node *)

(** Lines 279-291 of a node that is not yet traversed and lies below the
    depth bound, followed by the similarity check and its consequences. *)
Lemma generate_docstrings_enter fuel task docstring max_depth parent current_depth s :
  hash_for_docstring docstring ∉ already_traversing s →
  current_depth < max_depth →
  _generate_docstrings (S fuel) task docstring max_depth parent current_depth s
  = bind (find_similar fuel docstring)
         (after_similar fuel task docstring max_depth parent current_depth)
         (entered (hash_for_docstring docstring) s).
Proof.
  intros Hnew Hdepth. cbn [_generate_docstrings].
  unfold bind at 1. unfold get_already_traversing.
  rewrite decide_False by done.
  unfold bind at 1. unfold set_already_traversing.
  rewrite bool_decide_eq_false_2 by lia.
  unfold bind at 1. unfold _get_dependents_registry_dir at 1.
  unfold bind at 1. unfold get_registry at 1.
  unfold bind at 1. unfold put_registry at 1, ret at 1.
  unfold bind at 1. unfold _get_dependencies_registry_dir at 1.
  unfold bind at 1. unfold get_registry at 1.
  unfold bind at 1. unfold put_registry at 1, ret at 1.
  cbn [registry already_traversing world calls docstrings dependencies dependents].
  change (mkState _ _ _ _) with (entered (hash_for_docstring docstring) s).
  apply bind_ext. by intros [similar|] s1.
Qed.

(** ** The similar docstring is the parent *)

(** Lines 327-329 from any registry: one of the three removal calls raises
    [FileNotFoundError]; no directory under [dependents/] and no other
    directory under [dependencies/] has changed by then. *)
Lemma duplicate_of_parent_raises h s :
  ∃ s', duplicate_of_parent h s = Raise FileNotFoundError s'
        ∧ dependents (registry s') = dependents (registry s)
        ∧ (∀ d, d ≠ h →
             dependencies (registry s') !! d = dependencies (registry s) !! d).
Proof.
  unfold duplicate_of_parent, bind, unlink_docstring, rmtree_dependencies,
    get_registry, put_registry, raise; cbn.
  destruct (docstrings (registry s) !! h) as [text|] eqn:Htext; cbn.
  - destruct (dependencies (registry s) !! h) as [entries|] eqn:Hdir; cbn.
    + rewrite lookup_delete_eq. eexists; split_and!; [done|done|].
      intros d Hd; cbn. by rewrite lookup_delete_ne.
    + eexists; split_and!; done.
  - eexists; split_and!; done.
Qed.

(** C6, as the code has it: the removal calls of the pruning branch are not
    tolerant.  From every registry the branch raises [FileNotFoundError];
    when the stored text and the dependencies directory are both present
    the error comes from the branch's own second [shutil.rmtree] of the
    directory its first one has just removed. *)
Theorem pruning_removal_raises h s :
  (∃ s', duplicate_of_parent h s = Raise FileNotFoundError s')
  ∧ (is_Some (docstrings (registry s) !! h) →
     is_Some (dependencies (registry s) !! h) →
     duplicate_of_parent h s
     = Raise FileNotFoundError
         (mkState (mkRegistry (delete h (docstrings (registry s)))
                              (delete h (dependencies (registry s)))
                              (dependents (registry s)))
                  (already_traversing s) (world s) (calls s))).
Proof.
  split.
  - destruct (duplicate_of_parent_raises h s) as (s' & Hraise & _). eauto.
  - intros [text Htext] [entries Hdir].
    unfold duplicate_of_parent, bind, unlink_docstring, rmtree_dependencies,
      get_registry, put_registry, raise; cbn.
    rewrite Htext; cbn. rewrite Hdir; cbn. by rewrite lookup_delete_eq.
Qed.

(** C2, as the code has it: when the similarity check points at the parent,
    the expansion step raises [FileNotFoundError] instead of returning no
    id; the dependents directory of the candidate is still there and no
    dependency edge of another node has been deleted. *)
Theorem self_reference_pruning_raises fuel task docstring max_depth parent
    current_depth s similar s1 :
  hash_for_docstring docstring ∉ already_traversing s →
  current_depth < max_depth →
  find_similar fuel docstring (entered (hash_for_docstring docstring) s)
  = Ok (Some similar) s1 →
  parent = Some (hash_for_docstring similar) →
  ∃ s',
    _generate_docstrings (S fuel) task docstring max_depth parent current_depth s
    = Raise FileNotFoundError s'
    ∧ is_Some (dependents (registry s') !! hash_for_docstring docstring)
    ∧ (∀ d, d ≠ hash_for_docstring docstring →
         dependencies (registry s') !! d = dependencies (registry s) !! d).
Proof.
  intros Hnew Hdepth Hsimilar ->.
  rewrite generate_docstrings_enter by done.
  erewrite bind_Ok by done.
  pose proof (io_only_find_similar fuel docstring
                (entered (hash_for_docstring docstring) s)) as Hio.
  rewrite Hsimilar in Hio. destruct Hio as [Hreg _].
  unfold after_similar. rewrite decide_True by done.
  destruct (duplicate_of_parent_raises (hash_for_docstring docstring) s1)
    as (s' & Hraise & Hdependents & Hother).
  exists s'. erewrite bind_Raise by done. split_and!; [done| |].
  - rewrite Hdependents, Hreg. cbn. unfold mkdir_exist_ok.
    destruct (dependents (registry s) !! _) eqn:Hdir; [by rewrite Hdir|].
    rewrite lookup_insert_eq. eauto.
  - intros d Hd. rewrite Hother, Hreg by done. cbn. unfold mkdir_exist_ok.
    destruct (dependencies (registry s) !! _); [done|].
    by rewrite lookup_insert_ne.
Qed.

(** ** The verdict of the judge *)

(** The similarity check up to the parsed verdict (lines 293-315). *)
Lemma find_similar_judged fuel docstring s found s1 data s2 :
  closest_functions docstring s = Ok found s1 →
  list_remove_first docstring found ≠ [] →
  _run_with_error_loop fuel
    (SIMILAR_PROMPT docstring
       (similar_docstrings_text (list_remove_first docstring found))) "" s1
  = Ok data s2 →
  find_similar fuel docstring s
  = bind (subscript data "same function")
      (λ same_function,
         if is_True same_function then
           bind (subscript data "most similar")
             (λ index,
                bind (list_subscript (list_remove_first docstring found) index)
                  (λ similar_docstring, ret (Some similar_docstring)))
         else ret None) s2.
Proof.
  intros Hclosest Hsome Hjudge. unfold find_similar.
  erewrite bind_Ok by done.
  rewrite bool_decide_eq_true_2 by (by destruct (list_remove_first _ _)).
  by erewrite bind_Ok by done.
Qed.

Lemma python_index_out_of_range {A} (l : list A) i :
  i < - Z.of_nat (length l) ∨ Z.of_nat (length l) <= i →
  python_index l i = None.
Proof.
  intros Hrange. unfold python_index.
  rewrite !bool_decide_eq_false_2 by lia. reflexivity.
Qed.

(** C5, as the code has it: a ["same function"] field that is not the
    boolean [True] makes the candidate Novel (it is stored, then expanded and
    linked, whatever ["most similar"] holds); under a [True] verdict an
    integer ["most similar"] outside the candidate list is not turned into
    Novel but raises [IndexError], the registry holding no more than the two
    edge directories made on entry. *)
Theorem judge_verdict_outcome fuel task docstring max_depth parent current_depth
    s found s1 fields s2 :
  hash_for_docstring docstring ∉ already_traversing s →
  current_depth < max_depth →
  closest_functions docstring (entered (hash_for_docstring docstring) s)
  = Ok found s1 →
  list_remove_first docstring found ≠ [] →
  _run_with_error_loop fuel
    (SIMILAR_PROMPT docstring
       (similar_docstrings_text (list_remove_first docstring found))) "" s1
  = Ok (JObj fields) s2 →
  (∀ same_function,
     dict_get fields "same function" = Some same_function →
     same_function ≠ JBool true →
     _generate_docstrings (S fuel) task docstring max_depth parent current_depth s
     = persist_expand_link fuel
         (expand_child fuel task max_depth (hash_for_docstring docstring)
            current_depth)
         task docstring parent s2)
  ∧ (∀ index,
       dict_get fields "same function" = Some (JBool true) →
       dict_get fields "most similar" = Some (JInt index) →
       index < - Z.of_nat (length (list_remove_first docstring found))
       ∨ Z.of_nat (length (list_remove_first docstring found)) <= index →
       _generate_docstrings (S fuel) task docstring max_depth parent current_depth s
       = Raise IndexError s2
       ∧ registry s2 = registry (entered (hash_for_docstring docstring) s)).
Proof.
  intros Hnew Hdepth Hclosest Hsome Hjudge.
  assert (registry s2 = registry (entered (hash_for_docstring docstring) s))
    as Hregistry.
  { pose proof (io_only_closest_functions docstring
                  (entered (hash_for_docstring docstring) s)) as H1.
    rewrite Hclosest in H1. destruct H1 as [H1 _].
    pose proof (io_only_run_loop fuel
                  (SIMILAR_PROMPT docstring
                     (similar_docstrings_text (list_remove_first docstring found)))
                  "" "" s1) as H2.
    unfold _run_with_error_loop in Hjudge. rewrite Hjudge in H2.
    destruct H2 as [H2 _]. congruence. }
  split.
  - intros same_function Hfield Hnot.
    rewrite generate_docstrings_enter by done.
    assert (find_similar fuel docstring (entered (hash_for_docstring docstring) s)
            = Ok None s2) as Hnovel.
    { erewrite find_similar_judged by done.
      unfold bind, subscript. rewrite Hfield. unfold ret.
      by destruct same_function as [|[]| | | | |]. }
    by erewrite bind_Ok by done.
  - intros index Hsame Hindex Hrange. split; [|done].
    rewrite generate_docstrings_enter by done.
    apply bind_Raise.
    erewrite find_similar_judged by done.
    unfold bind, subscript. rewrite Hsame. unfold ret; cbn.
    rewrite Hindex. cbn. by rewrite python_index_out_of_range.
Qed.

(** ** The similar docstring is stored: merging *)

Lemma with_dependencies_twice dirs1 dirs2 s :
  with_dependencies dirs2 (with_dependencies dirs1 s) = with_dependencies dirs2 s.
Proof. reflexivity. Qed.

Lemma with_dependencies_same s :
  with_dependencies (dependencies (registry s)) s = s.
Proof. by destruct s as [[] ? ? ?]. Qed.

(** One turn of the loop of lines 347-355 on a dependent whose directory
    holds the marker of the candidate. *)
Lemma rewire_dependent_Ok h sh path s entries :
  dependencies (registry s) !! stem path = Some entries →
  h ∈ entries →
  rewire_dependent h sh path s
  = Ok tt (with_dependencies
             (<[stem path := {[sh]} ∪ entries ∖ {[h]}]> (dependencies (registry s)))
             s).
Proof.
  intros Hdir Hin.
  unfold rewire_dependent, bind, _get_dependencies_registry_dir,
    rename_dependency, get_registry, put_registry, ret, mkdir_exist_ok; cbn.
  rewrite Hdir; cbn. rewrite Hdir. by rewrite decide_True.
Qed.

(** The whole loop, on paths with distinct stems. *)
Lemma rewire_all h sh paths s :
  NoDup (stem <$> paths) →
  (∀ p, p ∈ paths →
     ∃ entries, dependencies (registry s) !! stem p = Some entries ∧ h ∈ entries) →
  ∃ dirs,
    for_each paths (rewire_dependent h sh) s = Ok tt (with_dependencies dirs s)
    ∧ (∀ p entries, p ∈ paths →
         dependencies (registry s) !! stem p = Some entries →
         dirs !! stem p = Some ({[sh]} ∪ entries ∖ {[h]}))
    ∧ (∀ k, k ∉ stem <$> paths → dirs !! k = dependencies (registry s) !! k).
Proof.
  revert s. induction paths as [|p paths IH]; intros s Hnodup Hmarked.
  - exists (dependencies (registry s)). split_and!.
    + cbn. unfold ret. by rewrite with_dependencies_same.
    + intros p entries Hp. by apply elem_of_nil in Hp.
    + done.
  - rewrite fmap_cons in Hnodup. apply NoDup_cons in Hnodup as [Hfresh Hnodup].
    destruct (Hmarked p) as (entries & Hdir & Hin); [by left|].
    destruct (IH (with_dependencies
                    (<[stem p := {[sh]} ∪ entries ∖ {[h]}]> (dependencies (registry s)))
                    s)) as (dirs & Hrun & Hrewired & Hother); [done| |].
    { intros q Hq. destruct (Hmarked q) as (entries' & Hdir' & Hin'); [by right|].
      exists entries'. split; [|done]. cbn.
      rewrite lookup_insert_ne; [done|].
      intros Heq. apply Hfresh. rewrite Heq. by apply list_elem_of_fmap_2. }
    exists dirs. split_and!.
    + rewrite for_each_cons.
      erewrite bind_Ok by by apply rewire_dependent_Ok.
      by rewrite Hrun, with_dependencies_twice.
    + intros q entries' Hq Hdir'. apply elem_of_cons in Hq as [->|Hq].
      * rewrite Hother by done. cbn. rewrite lookup_insert_eq. congruence.
      * apply Hrewired; [done|]. cbn. rewrite lookup_insert_ne; [done|].
        intros Heq. apply Hfresh. rewrite Heq. by apply list_elem_of_fmap_2.
    + intros k Hk. rewrite fmap_cons in Hk. apply not_elem_of_cons in Hk as [Hne Hk].
      rewrite Hother by done. cbn. by rewrite lookup_insert_ne.
Qed.

(** Lines 345-355: the stored text and the dependencies directory of the
    candidate go, and every dependent has its marker of the candidate
    renamed to a marker of the similar docstring.  The directory under
    [dependents/] stays. *)
Lemma duplicate_of_existing_Ok h sh s text entries :
  docstrings (registry s) !! h = Some text →
  dependencies (registry s) !! h = Some entries →
  (∀ p q, p ∈ default ∅ (dependents (registry s) !! h) →
          q ∈ default ∅ (dependents (registry s) !! h) →
          stem p = stem q → p = q) →
  (∀ p, p ∈ default ∅ (dependents (registry s) !! h) →
     stem p ≠ h ∧
     ∃ marked_by, dependencies (registry s) !! stem p = Some marked_by
                  ∧ h ∈ marked_by) →
  ∃ dirs,
    duplicate_of_existing h sh s
    = Ok tt (mkState (mkRegistry (delete h (docstrings (registry s))) dirs
                                 (dependents (registry s)))
                     (already_traversing s) (world s) (calls s))
    ∧ dirs !! h = None
    ∧ (∀ p marked_by,
         p ∈ default ∅ (dependents (registry s) !! h) →
         dependencies (registry s) !! stem p = Some marked_by →
         dirs !! stem p = Some ({[sh]} ∪ marked_by ∖ {[h]}))
    ∧ (∀ k, k ≠ h →
         (∀ p, p ∈ default ∅ (dependents (registry s) !! h) → stem p ≠ k) →
         dirs !! k = dependencies (registry s) !! k).
Proof.
  intros Htext Hdir Hinj Hmarked.
  set (s1 := mkState (mkRegistry (delete h (docstrings (registry s)))
                        (delete h (dependencies (registry s)))
                        (dependents (registry s)))
               (already_traversing s) (world s) (calls s)).
  destruct (rewire_all h sh (elements (default ∅ (dependents (registry s) !! h))) s1)
    as (dirs & Hrun & Hrewired & Hother).
  { apply NoDup_fmap_2_strong; [|apply NoDup_elements].
    intros p q Hp Hq. apply Hinj; by apply elem_of_elements. }
  { intros p Hp. apply elem_of_elements in Hp.
    destruct (Hmarked p Hp) as (Hne & marked_by & Hlook & Hin).
    exists marked_by. split; [|done]. cbn. by rewrite lookup_delete_ne. }
  exists dirs. split_and!.
  - unfold duplicate_of_existing, bind, unlink_docstring, rmtree_dependencies,
      glob_dependents, get_registry, put_registry, ret; cbn.
    rewrite Htext; cbn. rewrite Hdir; cbn. fold s1. by rewrite Hrun.
  - rewrite Hother; [cbn; apply lookup_delete_eq|].
    intros (p & Heq & Hp)%list_elem_of_fmap. apply elem_of_elements in Hp.
    by destruct (Hmarked p Hp) as [Hne _].
  - intros p marked_by Hp Hlook. apply Hrewired; [by apply elem_of_elements|].
    cbn. rewrite lookup_delete_ne; [done|].
    by destruct (Hmarked p Hp) as [Hne _].
  - intros k Hk Hnot. rewrite Hother.
    + cbn. by rewrite lookup_delete_ne.
    + intros (p & Heq & Hp)%list_elem_of_fmap. apply elem_of_elements in Hp.
      by apply (Hnot p Hp).
Qed.

(** What the answer [Some similar] leads to when [similar] is not the
    parent (lines 339-365). *)
Lemma after_similar_not_parent fuel task docstring max_depth parent current_depth
    similar s1 :
  Some (hash_for_docstring similar) ≠ parent →
  after_similar fuel task docstring max_depth parent current_depth (Some similar) s1
  = if bool_decide (is_Some (docstrings (registry s1) !! hash_for_docstring similar))
    then bind (duplicate_of_existing (hash_for_docstring docstring)
                 (hash_for_docstring similar))
           (λ _, _generate_docstrings fuel task similar max_depth parent
                   current_depth) s1
    else persist_expand_link fuel
           (expand_child fuel task max_depth (hash_for_docstring docstring)
              current_depth)
           task docstring parent s1.
Proof.
  intros Hne. unfold after_similar. rewrite decide_False by done.
  unfold bind at 1, ret at 1. unfold bind at 1.
  unfold docstring_exists, bind at 1, get_registry, ret.
  by case_bool_decide.
Qed.

(** C3, as the code has it: the test of line 344 merges when the text of
    the similar docstring IS stored.  Then the stored text and the
    dependencies directory of the candidate are removed, every dependent has
    its marker of the candidate renamed to a marker of the similar docstring,
    and the similar docstring is expanded at the same depth and parent, its
    result being returned.  When the text of the similar docstring is NOT
    stored nothing is removed or rewired: the candidate is persisted,
    expanded and linked like a Novel one. *)
Theorem duplicate_of_existing_outcome fuel task docstring max_depth parent
    current_depth s similar s1 :
  hash_for_docstring docstring ∉ already_traversing s →
  current_depth < max_depth →
  find_similar fuel docstring (entered (hash_for_docstring docstring) s)
  = Ok (Some similar) s1 →
  Some (hash_for_docstring similar) ≠ parent →
  (is_Some (docstrings (registry s) !! hash_for_docstring similar) →
   _generate_docstrings (S fuel) task docstring max_depth parent current_depth s
   = bind (duplicate_of_existing (hash_for_docstring docstring)
             (hash_for_docstring similar))
       (λ _, _generate_docstrings fuel task similar max_depth parent current_depth)
       s1)
  ∧ (is_Some (docstrings (registry s) !! hash_for_docstring similar) →
     is_Some (docstrings (registry s) !! hash_for_docstring docstring) →
     (∀ p q, p ∈ default ∅ (dependents (registry s) !! hash_for_docstring docstring) →
             q ∈ default ∅ (dependents (registry s) !! hash_for_docstring docstring) →
             stem p = stem q → p = q) →
     (∀ p, p ∈ default ∅ (dependents (registry s) !! hash_for_docstring docstring) →
        stem p ≠ hash_for_docstring docstring ∧
        ∃ marked_by, dependencies (registry s) !! stem p = Some marked_by
                     ∧ hash_for_docstring docstring ∈ marked_by) →
     ∃ s2,
       duplicate_of_existing (hash_for_docstring docstring)
         (hash_for_docstring similar) s1 = Ok tt s2
       ∧ docstrings (registry s2) !! hash_for_docstring docstring = None
       ∧ dependencies (registry s2) !! hash_for_docstring docstring = None
       ∧ (∀ p marked_by,
            p ∈ default ∅ (dependents (registry s) !! hash_for_docstring docstring) →
            dependencies (registry s) !! stem p = Some marked_by →
            dependencies (registry s2) !! stem p
            = Some ({[hash_for_docstring similar]}
                    ∪ marked_by ∖ {[hash_for_docstring docstring]}))
       ∧ _generate_docstrings (S fuel) task docstring max_depth parent
           current_depth s
         = _generate_docstrings fuel task similar max_depth parent
             current_depth s2)
  ∧ (docstrings (registry s) !! hash_for_docstring similar = None →
     _generate_docstrings (S fuel) task docstring max_depth parent current_depth s
     = persist_expand_link fuel
         (expand_child fuel task max_depth (hash_for_docstring docstring)
            current_depth)
         task docstring parent s1).
Proof.
  intros Hnew Hdepth Hsimilar Hne.
  pose proof (io_only_find_similar fuel docstring
                (entered (hash_for_docstring docstring) s)) as Hio.
  rewrite Hsimilar in Hio. destruct Hio as [Hreg _].
  assert (docstrings (registry s1) = docstrings (registry s)) as Hdocs
    by by rewrite Hreg.
  assert (default ∅ (dependents (registry s1) !! hash_for_docstring docstring)
          = default ∅ (dependents (registry s) !! hash_for_docstring docstring))
    as Hdependents.
  { rewrite Hreg. cbn. unfold mkdir_exist_ok.
    destruct (dependents (registry s) !! _) eqn:Hd; [by rewrite Hd|].
    by rewrite lookup_insert_eq. }
  assert (∀ k, k ≠ hash_for_docstring docstring →
            dependencies (registry s1) !! k = dependencies (registry s) !! k)
    as Hdeps.
  { intros k Hk. rewrite Hreg. cbn. unfold mkdir_exist_ok.
    destruct (dependencies (registry s) !! hash_for_docstring docstring); [done|].
    by rewrite lookup_insert_ne. }
  assert (is_Some (dependencies (registry s1) !! hash_for_docstring docstring))
    as [entries Hdir].
  { rewrite Hreg. cbn. unfold mkdir_exist_ok.
    destruct (dependencies (registry s) !! _) eqn:Hd; [by rewrite Hd|].
    rewrite lookup_insert_eq. eauto. }
  assert (_generate_docstrings (S fuel) task docstring max_depth parent
            current_depth s
          = after_similar fuel task docstring max_depth parent current_depth
              (Some similar) s1) as Hstep.
  { rewrite generate_docstrings_enter by done. by erewrite bind_Ok by done. }
  rewrite Hstep, after_similar_not_parent, Hdocs by done.
  split_and!.
  - intros Hstored. by rewrite bool_decide_eq_true_2.
  - intros Hstored [text Htext] Hinj Hmarked.
    rewrite bool_decide_eq_true_2 by done.
    destruct (duplicate_of_existing_Ok (hash_for_docstring docstring)
                (hash_for_docstring similar) s1 text entries)
      as (dirs & Hrun & Hgone & Hrewired & _).
    + by rewrite Hdocs.
    + done.
    + rewrite Hdependents. apply Hinj.
    + rewrite Hdependents. intros p Hp.
      destruct (Hmarked p Hp) as (Hp_ne & marked_by & Hlook & Hin).
      split; [done|]. exists marked_by. by rewrite Hdeps.
    + eexists. split_and!; [exact Hrun|..].
      * cbn. rewrite Hdocs. apply lookup_delete_eq.
      * done.
      * intros p marked_by Hp Hlook. cbn. apply Hrewired.
        -- by rewrite Hdependents.
        -- rewrite Hdeps; [done|]. by destruct (Hmarked p Hp).
      * by erewrite bind_Ok by done.
  - intros Habsent. rewrite bool_decide_eq_false_2; [done|].
    rewrite Habsent. by intros [? ?].
Qed.

(** ** Stored texts of traversed nodes are not touched *)

Lemma keeps_ret {A} h0 (a : A) : keeps (World:=World) h0 (ret a).
Proof. by intros s Hin. Qed.

Lemma keeps_raise {A} h0 e : keeps (World:=World) (A:=A) h0 (raise e).
Proof. by intros s Hin. Qed.

Lemma keeps_bind {A B} h0 (m : M (World:=World) A) (f : A → M B) :
  keeps h0 m → (∀ a, keeps h0 (f a)) → keeps h0 (bind m f).
Proof.
  intros Hm Hf s Hin. unfold bind. specialize (Hm s Hin).
  destruct (m s) as [a s1|e s1|]; [|done..].
  destruct Hm as [Hin1 Hdoc1]. specialize (Hf a s1 Hin1).
  destruct (f a s1) as [b s2|e s2|]; [|done..].
  destruct Hf as [Hin2 Hdoc2]. split; [done|congruence].
Qed.

Lemma keeps_io_only {A} h0 (m : M (World:=World) A) : io_only m → keeps h0 m.
Proof.
  intros Hio s Hin. specialize (Hio s).
  destruct (m s) as [a s1|e s1|]; [|done..].
  destruct Hio as [-> ->]. done.
Qed.

(** A computation that changes the registry outside [docstrings/] only. *)
Lemma keeps_edges {A} h0 (m : M (World:=World) A) :
  (∀ s, match m s with
        | Ok _ s' => already_traversing s' = already_traversing s
                     ∧ docstrings (registry s') = docstrings (registry s)
        | _ => True
        end) →
  keeps h0 m.
Proof.
  intros Hm s Hin. specialize (Hm s).
  destruct (m s) as [a s1|e s1|]; [|done..].
  destruct Hm as [-> ->]. done.
Qed.

Lemma keeps_get_dependencies_registry_dir h0 h :
  keeps (World:=World) h0 (_get_dependencies_registry_dir h).
Proof. by apply keeps_edges. Qed.

Lemma keeps_get_dependents_registry_dir h0 h :
  keeps (World:=World) h0 (_get_dependents_registry_dir h).
Proof. by apply keeps_edges. Qed.

Lemma keeps_rmtree_dependencies h0 h :
  keeps (World:=World) h0 (rmtree_dependencies h).
Proof.
  apply keeps_edges. intros s.
  unfold rmtree_dependencies, bind, get_registry; cbn.
  by destruct (dependencies (registry s) !! h).
Qed.

Lemma keeps_glob_dependents h0 h : keeps (World:=World) h0 (glob_dependents h).
Proof. by apply keeps_edges. Qed.

Lemma keeps_docstring_exists h0 h : keeps (World:=World) h0 (docstring_exists h).
Proof. by apply keeps_edges. Qed.

Lemma keeps_unlink_dependency h0 dir name :
  keeps (World:=World) h0 (unlink_dependency dir name).
Proof.
  apply keeps_edges. intros s.
  unfold unlink_dependency, bind, get_registry; cbn.
  destruct (dependencies (registry s) !! dir); [|done].
  by destruct (decide _).
Qed.

Lemma keeps_rename_dependency h0 dir old new :
  keeps (World:=World) h0 (rename_dependency dir old new).
Proof.
  apply keeps_edges. intros s.
  unfold rename_dependency, bind, get_registry; cbn.
  destruct (dependencies (registry s) !! dir); [|done].
  by destruct (decide _).
Qed.

Lemma keeps_touch_dependent h0 dir name :
  keeps (World:=World) h0 (touch_dependent dir name).
Proof.
  apply keeps_edges. intros s.
  unfold touch_dependent, bind, get_registry; cbn.
  by destruct (dependents (registry s) !! dir).
Qed.

Lemma keeps_touch_dependency h0 dir child_hash :
  keeps (World:=World) h0 (touch_dependency dir child_hash).
Proof.
  apply keeps_edges. intros s. destruct child_hash as [name|]; [|done].
  unfold touch_dependency, bind, get_registry; cbn.
  by destruct (dependencies (registry s) !! dir).
Qed.

Lemma keeps_unlink_docstring h0 h :
  h ≠ h0 → keeps (World:=World) h0 (unlink_docstring h).
Proof.
  intros Hne s Hin. unfold unlink_docstring, bind, get_registry; cbn.
  destruct (docstrings (registry s) !! h); [|done]. cbn.
  by rewrite lookup_delete_ne.
Qed.

Lemma keeps_write_docstring h0 h contents :
  h ≠ h0 → keeps (World:=World) h0 (write_docstring h contents).
Proof.
  intros Hne s Hin. unfold write_docstring, bind, get_registry; cbn.
  by rewrite lookup_insert_ne.
Qed.

Lemma keeps_for_each {A} h0 (xs : list A) (body : A → M (World:=World) unit) :
  (∀ x, keeps h0 (body x)) → keeps h0 (for_each xs body).
Proof.
  intros Hbody. induction xs as [|x xs IH]; cbn.
  - apply keeps_ret.
  - apply keeps_bind; [apply Hbody|done].
Qed.

Lemma keeps_gather {A} h0 (coroutines : list (M (World:=World) A)) :
  Forall (keeps h0) coroutines → keeps h0 (gather coroutines).
Proof.
  induction 1 as [|c rest Hc Hrest IH]; cbn.
  - apply keeps_ret.
  - apply keeps_bind; [done|]. intros x.
    apply keeps_bind; [done|]. intros xs. apply keeps_ret.
Qed.

Lemma keeps_duplicate_of_parent h0 h :
  h ≠ h0 → keeps (World:=World) h0 (duplicate_of_parent h).
Proof.
  intros Hne. unfold duplicate_of_parent.
  apply keeps_bind; [by apply keeps_unlink_docstring|]. intros _.
  apply keeps_bind; [apply keeps_rmtree_dependencies|]. intros _.
  apply keeps_bind; [apply keeps_rmtree_dependencies|]. intros _.
  apply keeps_bind; [apply keeps_glob_dependents|]. intros paths.
  destruct paths as [|path paths]; cbn; [apply keeps_ret|].
  apply keeps_bind; [apply keeps_get_dependencies_registry_dir|]. intros dir.
  apply keeps_bind; [apply keeps_unlink_dependency|]. intros _. apply keeps_ret.
Qed.

Lemma keeps_duplicate_of_existing h0 h sh :
  h ≠ h0 → keeps (World:=World) h0 (duplicate_of_existing h sh).
Proof.
  intros Hne. unfold duplicate_of_existing.
  apply keeps_bind; [by apply keeps_unlink_docstring|]. intros _.
  apply keeps_bind; [apply keeps_rmtree_dependencies|]. intros _.
  apply keeps_bind; [apply keeps_glob_dependents|]. intros paths.
  apply keeps_for_each. intros path. unfold rewire_dependent.
  apply keeps_bind; [apply keeps_get_dependencies_registry_dir|]. intros dir.
  apply keeps_rename_dependency.
Qed.

Lemma keeps_persist h0 docstring parent :
  hash_for_docstring docstring ≠ h0 → keeps h0 (persist docstring parent).
Proof.
  intros Hne. unfold persist.
  apply keeps_bind; [by apply keeps_write_docstring|]. intros _.
  destruct parent; [apply keeps_touch_dependent|apply keeps_ret].
Qed.

Lemma keeps_link h0 h child_docstring_hashes :
  keeps (World:=World) h0 (link h child_docstring_hashes).
Proof. apply keeps_for_each. intros x. apply keeps_touch_dependency. Qed.

(** Lines 375-401: asking for the children, expanding them and linking. *)
Lemma keeps_expand_link h0 fuel (expand : string → M (option string))
    task docstring :
  (∀ child_docstring, keeps h0 (expand child_docstring)) →
  keeps h0
    (bind (_run_with_error_loop fuel (PROMPT task docstring) "")
       (λ child_docstrings,
          bind (iterate child_docstrings)
            (λ children,
               bind (gather (map (λ child,
                                    bind (as_docstring child)
                                      (λ child_docstring, expand child_docstring))
                               children))
                 (λ child_docstring_hashes,
                    bind (link (hash_for_docstring docstring) child_docstring_hashes)
                      (λ _, ret (Some (hash_for_docstring docstring))))))).
Proof.
  intros Hexpand.
  apply keeps_bind; [apply keeps_io_only, io_only_run_loop|]. intros data.
  apply keeps_bind.
  { destruct data; cbn; first [apply keeps_ret|apply keeps_raise]. }
  intros children. apply keeps_bind.
  { apply keeps_gather, Forall_map, Forall_forall. intros child _.
    apply keeps_bind; [|intros child_docstring; apply Hexpand].
    destruct child; cbn; first [apply keeps_ret|apply keeps_raise]. }
  intros hashes. apply keeps_bind; [apply keeps_link|]. intros _.
  apply keeps_ret.
Qed.

Lemma keeps_persist_expand_link h0 fuel (expand : string → M (option string))
    task docstring parent :
  hash_for_docstring docstring ≠ h0 →
  (∀ child_docstring, keeps h0 (expand child_docstring)) →
  keeps h0 (persist_expand_link fuel expand task docstring parent).
Proof.
  intros Hne Hexpand. unfold persist_expand_link.
  apply keeps_bind; [by apply keeps_persist|]. intros _.
  by apply keeps_expand_link.
Qed.

Lemma keeps_generate_docstrings h0 fuel task docstring max_depth parent current_depth :
  keeps h0 (_generate_docstrings fuel task docstring max_depth parent current_depth).
Proof.
  revert docstring parent current_depth.
  induction fuel as [|n IH]; intros docstring parent current_depth s Hin; [done|].
  destruct (decide (hash_for_docstring docstring ∈ already_traversing s))
    as [Hseen|Hnew].
  { cbn [_generate_docstrings]. unfold bind, get_already_traversing.
    by rewrite decide_True. }
  destruct (decide (max_depth <= current_depth)) as [Hleaf|Hbelow].
  { rewrite generate_docstrings_at_bound by done. split; [|done].
    cbn. set_solver. }
  rewrite generate_docstrings_enter by (done || lia).
  assert (hash_for_docstring docstring ≠ h0) as Hne.
  { intros Heq. apply Hnew. by rewrite Heq. }
  assert (keeps h0
            (bind (find_similar n docstring)
               (after_similar n task docstring max_depth parent current_depth)))
    as Hrest.
  { apply keeps_bind; [apply keeps_io_only, io_only_find_similar|].
    intros [similar|]; unfold after_similar.
    - apply keeps_bind.
      { destruct (decide _); [by apply keeps_duplicate_of_parent|apply keeps_ret]. }
      intros [value|]; [apply keeps_ret|].
      apply keeps_bind; [apply keeps_docstring_exists|]. intros [|].
      + apply keeps_bind; [by apply keeps_duplicate_of_existing|]. intros _.
        apply IH.
      + apply keeps_persist_expand_link; [done|]. intros child. apply IH.
    - apply keeps_persist_expand_link; [done|]. intros child. apply IH. }
  specialize (Hrest (entered (hash_for_docstring docstring) s)).
  destruct (bind _ _ _) as [r s'|e s'|]; [|done..].
  apply Hrest. cbn. set_solver.
Qed.

Lemma append_newline_differs docstring : docstring +:+ nl ≠ docstring.
Proof.
  induction docstring as [|c rest IH]; [done|].
  cbn. intros Heq. by injection Heq.
Qed.

(** C10: the persist step writes [docstring + newline] under the hash of
    the docstring (and succeeds whenever there is no parent or the
    dependents directory exists); when the expansion of a node accepted as
    novel completes, the file still holds exactly that text, which is not
    the text that was hashed. *)
Theorem stored_text_ends_with_newline fuel task docstring max_depth parent
    current_depth s :
  (∀ s1, persist docstring parent s = Ok tt s1 →
     docstrings (registry s1) !! hash_for_docstring docstring
     = Some (docstring +:+ nl))
  ∧ (parent = None
     ∨ is_Some (dependents (registry s) !! hash_for_docstring docstring) →
     ∃ s1, persist docstring parent s = Ok tt s1)
  ∧ (hash_for_docstring docstring ∈ already_traversing s →
     ∀ r s',
       persist_expand_link fuel
         (expand_child fuel task max_depth (hash_for_docstring docstring)
            current_depth)
         task docstring parent s = Ok r s' →
       docstrings (registry s') !! hash_for_docstring docstring
       = Some (docstring +:+ nl))
  ∧ docstring +:+ nl ≠ docstring.
Proof.
  assert (∀ s1, persist docstring parent s = Ok tt s1 →
            docstrings (registry s1) !! hash_for_docstring docstring
            = Some (docstring +:+ nl)
            ∧ already_traversing s1 = already_traversing s) as Hwrite.
  { intros s1. unfold persist, bind, write_docstring, get_registry,
      put_registry; cbn.
    destruct parent as [p|]; cbn.
    - unfold touch_dependent, bind, get_registry, put_registry, raise; cbn.
      destruct (dependents (registry s) !! _); [|done].
      intros [= <-]; cbn. by rewrite lookup_insert_eq.
    - unfold ret. intros [= <-]; cbn. by rewrite lookup_insert_eq. }
  split_and!.
  - intros s1 Hs1. by apply Hwrite.
  - intros Hdir. unfold persist, bind, write_docstring, get_registry,
      put_registry; cbn.
    destruct parent as [p|]; cbn; [|by eexists].
    destruct Hdir as [|[entries Hdir]]; [done|].
    unfold touch_dependent, bind, get_registry, put_registry; cbn.
    rewrite Hdir. by eexists.
  - intros Hin r s'. unfold persist_expand_link.
    unfold bind at 1.
    destruct (persist docstring parent s) as [[] s1|e s1|] eqn:Hpersist; [|done..].
    destruct (Hwrite s1 eq_refl) as [Hfile Hseen].
    intros Hrun.
    pose proof (keeps_expand_link (hash_for_docstring docstring) fuel
                  (expand_child fuel task max_depth
                     (hash_for_docstring docstring) current_depth)
                  task docstring) as Hkeeps.
    specialize (Hkeeps (λ child, keeps_generate_docstrings _ _ _ _ _ _ _) s1).
    cbv beta in Hkeeps. rewrite Hrun in Hkeeps. rewrite Hseen in Hkeeps.
    destruct (Hkeeps Hin) as [_ ->]. done.
  - apply append_newline_differs.
Qed.

(** ** No expansion returns [None] *)

Lemma yields_id_bind {A} (m : M (World:=World) A) (f : A → M (option string)) :
  (∀ a, yields_id (f a)) → yields_id (bind m f).
Proof.
  intros Hf s r s'. unfold bind.
  destruct (m s) as [a s1|e s1|]; [|done..]. apply Hf.
Qed.

Lemma yields_id_ret h : yields_id (World:=World) (ret (Some h)).
Proof. intros s r s' [= <- _]. eauto. Qed.

Lemma yields_id_persist_expand_link fuel expand task docstring parent :
  yields_id (persist_expand_link fuel expand task docstring parent).
Proof.
  unfold persist_expand_link.
  do 5 (apply yields_id_bind; intros ?). apply yields_id_ret.
Qed.

(** The only [return None] of [_generate_docstrings] sits behind the
    removal calls of lines 327-329, which raise. *)
Lemma generate_docstrings_yields_id fuel task docstring max_depth parent current_depth :
  yields_id (_generate_docstrings fuel task docstring max_depth parent current_depth).
Proof.
  revert docstring parent current_depth.
  induction fuel as [|n IH]; intros docstring parent current_depth; [done|].
  cbn [_generate_docstrings].
  apply yields_id_bind; intros traversing.
  destruct (decide _); [apply yields_id_ret|].
  apply yields_id_bind; intros _.
  case_bool_decide; [apply yields_id_ret|].
  do 2 (apply yields_id_bind; intros _).
  apply yields_id_bind; intros [similar|];
    [|apply yields_id_persist_expand_link].
  destruct (decide _).
  - intros s r s'. unfold bind.
    destruct (duplicate_of_parent_raises (hash_for_docstring docstring) s)
      as (s1 & -> & _). done.
  - intros s. unfold bind at 1, ret at 1. revert s.
    apply yields_id_bind; intros [|].
    + apply yields_id_bind; intros _. apply IH.
    + apply yields_id_persist_expand_link.
Qed.

Lemma passes_yields_id fuel task root_docstring bounds root_docstring_hash :
  bounds ≠ [] ∨ is_Some root_docstring_hash →
  yields_id (passes fuel task root_docstring bounds root_docstring_hash).
Proof.
  revert root_docstring_hash.
  induction bounds as [|i rest IH]; intros init Hinit.
  - destruct Hinit as [|[h ->]]; [done|]. apply yields_id_ret.
  - cbn [passes]. apply yields_id_bind; intros _.
    intros s r s'. unfold bind.
    destruct (_generate_docstrings fuel task root_docstring i None 0 s)
      as [h s1|e s1|] eqn:Hpass; [|done..].
    apply IH. right. by eapply generate_docstrings_yields_id.
Qed.

Lemma range_positive max_depth :
  1 <= max_depth →
  range max_depth = 0 :: (Z.of_nat <$> seq 1 (Z.to_nat max_depth - 1)).
Proof.
  intros Hpos. unfold range.
  replace (Z.to_nat max_depth) with (S (Z.to_nat max_depth - 1)) at 1 by lia.
  reflexivity.
Qed.

(** ** The end-to-end scenario *)

Section EndToEnd.

(** Nothing is close to any docstring (the resolver always reports Novel),
    and the gateway answers every request for children of the task with a
    JSON text that parses to the empty list. *)
Variable task : string.
Hypothesis always_novel :
  ∀ w r docstring,
    list_remove_first docstring (get_closest_functions w r docstring).1 = [].
Hypothesis no_children :
  ∀ w docstring,
    json_loads (get_completion_only w (PROMPT task docstring)).1 = Parsed (JArr []).

Lemma find_similar_always_novel fuel docstring s :
  ∃ s1, find_similar fuel docstring s = Ok None s1
        ∧ registry s1 = registry s
        ∧ already_traversing s1 = already_traversing s.
Proof.
  unfold find_similar, bind, closest_functions.
  pose proof (always_novel (world s) (registry s) docstring) as Hnone.
  destruct (get_closest_functions (world s) (registry s) docstring)
    as [found w]. cbn in Hnone. rewrite Hnone. cbn.
  by eexists.
Qed.

(** A pass with a positive bound stores the root as a node without edges. *)
Lemma pass_stores_leaf fuel docstring bound s :
  0 < bound →
  already_traversing s = ∅ →
  ∃ s',
    _generate_docstrings (S (S fuel)) task docstring bound None 0 s
    = Ok (Some (hash_for_docstring docstring)) s'
    ∧ registry s' = store_leaf docstring (registry s).
Proof.
  intros Hbound Hfresh.
  rewrite generate_docstrings_enter by (rewrite ?Hfresh; set_solver || lia).
  destruct (find_similar_always_novel (S fuel) docstring
              (entered (hash_for_docstring docstring) s))
    as (s1 & Hfind & Hreg & _).
  erewrite bind_Ok by done.
  unfold after_similar, persist_expand_link.
  erewrite bind_Ok by reflexivity.
  erewrite bind_Ok by apply run_with_error_loop_first_parse, no_children.
  eexists. split; [reflexivity|]. cbn. by rewrite Hreg.
Qed.

Lemma store_leaf_idempotent docstring r :
  store_leaf docstring (store_leaf docstring r) = store_leaf docstring r.
Proof.
  unfold store_leaf, mkdir_exist_ok; cbn. f_equal.
  - apply insert_insert_eq.
  - destruct (dependencies r !! _) eqn:Hd; [by rewrite Hd|].
    by rewrite lookup_insert_eq.
  - destruct (dependents r !! _) eqn:Hd; [by rewrite Hd|].
    by rewrite lookup_insert_eq.
Qed.

Lemma passes_store_leaf fuel root_docstring bounds init s :
  Forall (λ bound, 0 < bound) bounds →
  bounds ≠ [] →
  ∃ s',
    passes (S (S fuel)) task root_docstring bounds init s
    = Ok (Some (hash_for_docstring root_docstring)) s'
    ∧ registry s' = store_leaf root_docstring (registry s).
Proof.
  intros Hbounds. revert init s.
  induction Hbounds as [|bound rest Hbound Hrest IH]; intros init s Hsome; [done|].
  cbn [passes]. unfold bind at 1, set_already_traversing at 1.
  destruct (pass_stores_leaf fuel root_docstring bound
              (mkState (registry s) ∅ (world s) (calls s)))
    as (s1 & Hpass & Hreg1); [done..|].
  erewrite bind_Ok by done.
  destruct rest as [|bound' rest].
  - cbn. unfold ret. by eexists.
  - destruct (IH (Some (hash_for_docstring root_docstring)) s1)
      as (s2 & Hrest_run & Hreg2); [done|].
    exists s2. split; [done|].
    by rewrite Hreg2, Hreg1, store_leaf_idempotent.
Qed.

Lemma passes_end_to_end fuel root_docstring max_depth s :
  1 <= max_depth →
  ∃ s',
    passes (S (S fuel)) task root_docstring (range max_depth) None s
    = Ok (Some (hash_for_docstring root_docstring)) s'
    ∧ registry s'
      = if decide (max_depth = 1) then registry s
        else store_leaf root_docstring (registry s).
Proof.
  intros Hpos. rewrite range_positive by done. cbn [passes].
  erewrite bind_Ok by reflexivity.
  erewrite bind_Ok by by apply generate_docstrings_at_bound.
  destruct (decide (max_depth = 1)) as [->|Hmore].
  - cbn. by eexists.
  - edestruct (passes_store_leaf fuel root_docstring
                 (Z.of_nat <$> seq 1 (Z.to_nat max_depth - 1)))
      as (s' & Hrun & Hreg); [| |exists s'; split; [exact Hrun|exact Hreg]].
    + apply Forall_fmap, Forall_seq. intros j Hj. cbn. lia.
    + destruct (Z.to_nat max_depth - 1)%nat eqn:Hk; [lia|done].
Qed.

(** The driver in the scenario: it returns [None]; with one configured
    pass nothing is stored, with more the registry gains the root as its
    node without edges. *)
Lemma driver_end_to_end fuel max_depth s :
  1 <= max_depth →
  ∃ s',
    generate_docstrings_tree (S (S fuel)) task max_depth s = Ok None s'
    ∧ registry s'
      = if decide (max_depth = 1) then registry s
        else store_leaf (get_completion_only (world s) (INITIAL_PROMPT task)).1
               (registry s).
Proof.
  intros Hpos. unfold generate_docstrings_tree.
  erewrite bind_Ok by apply completion_eq.
  destruct (passes_end_to_end fuel
              (get_completion_only (world s) (INITIAL_PROMPT task)).1 max_depth
              (after_completion (INITIAL_PROMPT task) s) Hpos)
    as (s' & Hrun & Hreg).
  erewrite bind_Ok by done. by exists s'.
Qed.

End EndToEnd.

(** C1, as the code has it: for [max_depth >= 1] the driver never returns
    the root id.  Any value it returns is [None] (the variable [tree], which
    is never assigned); whenever its passes complete it returns [None], the
    id of the last pass being only checked by the assertion; and in the
    end-to-end scenario (nothing close to any docstring, an empty child list
    from the gateway, an empty registry) it returns [None], having stored
    nothing when [max_depth = 1] and exactly the root node without edges
    when [max_depth >= 2]. *)
Theorem driver_returns_None fuel task max_depth s :
  1 <= max_depth →
  (∀ value s',
     generate_docstrings_tree fuel task max_depth s = Ok value s' → value = None)
  ∧ (∀ id s',
       passes fuel task (get_completion_only (world s) (INITIAL_PROMPT task)).1
         (range max_depth) None
         (mkState (registry s) (already_traversing s)
            (get_completion_only (world s) (INITIAL_PROMPT task)).2
            (calls s ++ [CompletionCall (INITIAL_PROMPT task)]))
       = Ok id s' →
       generate_docstrings_tree fuel task max_depth s = Ok None s')
  ∧ ((∀ w r docstring,
        list_remove_first docstring (get_closest_functions w r docstring).1 = []) →
     (∀ w docstring,
        json_loads (get_completion_only w (PROMPT task docstring)).1
        = Parsed (JArr [])) →
     registry s = empty_registry →
     ∃ s',
       generate_docstrings_tree (S (S fuel)) task max_depth s = Ok None s'
       ∧ registry s'
         = if decide (max_depth = 1) then empty_registry
           else mkRegistry
                  {[ hash_for_docstring
                       (get_completion_only (world s) (INITIAL_PROMPT task)).1
                     := (get_completion_only (world s) (INITIAL_PROMPT task)).1
                        +:+ nl ]}
                  {[ hash_for_docstring
                       (get_completion_only (world s) (INITIAL_PROMPT task)).1
                     := ∅ ]}
                  {[ hash_for_docstring
                       (get_completion_only (world s) (INITIAL_PROMPT task)).1
                     := ∅ ]}).
Proof.
  intros Hpos. split_and!.
  - intros value s'. unfold generate_docstrings_tree, bind.
    destruct (completion _ s) as [root s1|e s1|]; [|done..].
    destruct (passes _ _ _ _ _ s1) as [[id|] s2|e s2|]; [|done..].
    unfold ret. by intros [= <- _].
  - intros id s' Hpasses. unfold generate_docstrings_tree.
    erewrite bind_Ok by apply completion_eq.
    erewrite bind_Ok by exact Hpasses.
    apply passes_yields_id in Hpasses as [h ->]; [done|].
    left. by rewrite range_positive.
  - intros Hnovel Hleaf Hempty.
    destruct (driver_end_to_end task Hnovel Hleaf fuel max_depth s Hpos)
      as (s' & Hrun & Hreg).
    exists s'. split; [done|]. rewrite Hreg, Hempty.
    destruct (decide _); [done|]. reflexivity.
Qed.

End Properties.

(** * The statements at concrete inputs *)

Lemma depth_bound_respected_witness :
  0 <= 0
  ∧ _generate_docstrings (collaborators := stub_collaborators no_neighbours)
      1 "reverse a string" e2e_root 0 None 0 e2e_state
    = Ok (Some (stub_hash e2e_root))
         (mkState (registry e2e_state)
                  ({[stub_hash e2e_root]} ∪ already_traversing e2e_state)
                  (world e2e_state) (calls e2e_state)).
Proof.
  split; [lia|].
  apply (depth_bound_respected (collaborators := stub_collaborators no_neighbours)
           0 "reverse a string" e2e_root 0 None 0 e2e_state).
  lia.
Defined.

Lemma driver_without_passes_witness :
  0 <= 0
  ∧ generate_docstrings_tree (collaborators := stub_collaborators no_neighbours)
      3 "reverse a string" 0 e2e_state
    = Raise AssertionError
        (mkState empty_registry ∅ ["[]"]
                 [CompletionCall "task: reverse a string"]).
Proof.
  split; [lia|].
  apply (driver_without_passes (collaborators := stub_collaborators no_neighbours)
           3 "reverse a string" 0 e2e_state).
  lia.
Defined.

Lemma malformed_response_recovery_witness :
  loads_from stub_table "oops" = JSONDecodeError stub_decode_error
  ∧ loads_from stub_table "[]" = Parsed (JArr [])
  ∧ _run_with_error_loop (collaborators := stub_collaborators no_neighbours)
      2 "children of: A" "" repair_state
    = Ok (JArr [])
         (mkState empty_registry ∅ []
            [CompletionCall "children of: A";
             CompletionCall
               ("# Error Message" +:+ nl +:+ nl +:+
                "You previously attempted the prompt below, however, when" +:+ nl +:+
                "attempting to run `json.loads(response)` on the response you" +:+ nl +:+
                "previously provided the following error was raised:" +:+ nl +:+ nl +:+
                "JSONDecodeError('Expecting value: line 1 column 1 (char 0)')"
                +:+ nl +:+ nl +:+
                "The response you previously provided was:" +:+ nl +:+ nl +:+
                "oops" +:+ nl +:+ nl +:+ "children of: A")]).
Proof.
  split; [reflexivity|]. split; [reflexivity|].
  apply (malformed_response_recovery
           (collaborators := stub_collaborators no_neighbours)
           0 "children of: A" "" repair_state "oops" ["[]"] stub_decode_error
           _ "[]" [] (JArr [])); reflexivity.
Defined.


Lemma pruning_removal_raises_witness :
  is_Some (docstrings (registry prune_state) !! "#B")
  ∧ is_Some (dependencies (registry prune_state) !! "#B")
  ∧ duplicate_of_parent "#B" prune_state
    = Raise FileNotFoundError
        (mkState (mkRegistry (delete "#B" (docstrings (registry prune_state)))
                             (delete "#B" (dependencies (registry prune_state)))
                             (dependents (registry prune_state)))
                 (already_traversing prune_state) (world prune_state)
                 (calls prune_state)).
Proof.
  assert (is_Some (docstrings (registry prune_state) !! "#B")) as Htext
    by (eexists; vm_compute; reflexivity).
  assert (is_Some (dependencies (registry prune_state) !! "#B")) as Hdir
    by (eexists; vm_compute; reflexivity).
  split; [exact Htext|]. split; [exact Hdir|].
  exact (proj2 (pruning_removal_raises "#B" prune_state) Htext Hdir).
Defined.

(** Deciding a membership that fails, by evaluation. *)
Ltac not_member :=
  let Hin := fresh "Hin" in intros Hin; vm_compute in Hin; discriminate Hin.

Lemma self_reference_pruning_raises_witness :
  ∃ s',
    _generate_docstrings (collaborators := stub_collaborators prune_neighbours)
      3 "task" "B" 2 (Some "#A") 1 prune_state
    = Raise FileNotFoundError s'
    ∧ is_Some (dependents (registry s') !! "#B")
    ∧ (∀ d, d ≠ "#B" →
         dependencies (registry s') !! d
         = dependencies (registry prune_state) !! d).
Proof.
  eapply (self_reference_pruning_raises
            (collaborators := stub_collaborators prune_neighbours)
            2 "task" "B" 2 (Some "#A") 1 prune_state "A").
  - not_member.
  - lia.
  - vm_compute. reflexivity.
  - reflexivity.
Defined.

Lemma judge_verdict_outcome_witness :
  (∃ s2,
     _generate_docstrings (collaborators := stub_collaborators prune_neighbours)
       3 "task" "B" 1 None 0
       (judge_state [verdict_text "0" (quoted "unknown"); "[]"])
     = persist_expand_link (collaborators := stub_collaborators prune_neighbours)
         2 (expand_child (collaborators := stub_collaborators prune_neighbours)
              2 "task" 1 "#B" 0)
         "task" "B" None s2)
  ∧ (∃ s2,
       _generate_docstrings (collaborators := stub_collaborators prune_neighbours)
         3 "task" "B" 1 None 0 (judge_state [verdict_text "5" "true"])
       = Raise IndexError s2).
Proof.
  split.
  - edestruct (judge_verdict_outcome
                 (collaborators := stub_collaborators prune_neighbours)
                 2 "task" "B" 1 None 0
                 (judge_state [verdict_text "0" (quoted "unknown"); "[]"])
                 ["A"]) as [Hnovel _].
    + not_member.
    + lia.
    + vm_compute. reflexivity.
    + discriminate.
    + vm_compute. reflexivity.
    + eexists. apply (Hnovel (JStr "unknown")); [reflexivity|discriminate].
  - edestruct (judge_verdict_outcome
                 (collaborators := stub_collaborators prune_neighbours)
                 2 "task" "B" 1 None 0
                 (judge_state [verdict_text "5" "true"])
                 ["A"]) as [_ Hraise].
    + not_member.
    + lia.
    + vm_compute. reflexivity.
    + discriminate.
    + vm_compute. reflexivity.
    + eexists. apply (Hraise 5); [reflexivity|reflexivity|right; vm_compute; discriminate].
Defined.

Lemma out_of_range_index_counterexample :
  ∃ s',
    _generate_docstrings (collaborators := stub_collaborators prune_neighbours)
      3 "task" "B" 1 None 0 (judge_state [verdict_text "5" "true"])
    = Raise IndexError s'
    ∧ docstrings (registry s') !! "#B" = None.
Proof. eexists. split; vm_compute; reflexivity. Defined.

Lemma merge_condition_counterexample :
  (∃ s',
     _generate_docstrings (collaborators := stub_collaborators merge_neighbours)
       3 "task" "Y" 2 (Some "#Z") 1 (merge_state merge_registry_absent)
     = Ok (Some "#Y") s'
     ∧ docstrings (registry s') !! "#Y" = Some ("Y" +:+ nl)
     ∧ dependencies (registry s') !! "#Z" = Some {[ "#Y" ]}
     ∧ calls s'
       = [ClosestCall "Y";
          CompletionCall ("compare: Y" +:+ nl +:+ "[0]" +:+ nl +:+ "X");
          CompletionCall "children of: Y"])
  ∧ (∃ s',
       _generate_docstrings (collaborators := stub_collaborators merge_neighbours)
         4 "task" "Y" 2 (Some "#Z") 1 (merge_state merge_registry_stored)
       = Ok (Some "#X") s'
       ∧ calls s'
         = [ClosestCall "Y";
            CompletionCall ("compare: Y" +:+ nl +:+ "[0]" +:+ nl +:+ "X");
            ClosestCall "X";
            CompletionCall "children of: X"]).
Proof.
  split; eexists; split_and!; vm_compute; reflexivity.
Defined.

Lemma duplicate_of_existing_outcome_witness :
  (∃ s2,
     docstrings (registry s2) !! "#Y" = None
     ∧ dependencies (registry s2) !! "#Y" = None
     ∧ dependencies (registry s2) !! "#Z" = Some ({[ "#X" ]} ∪ {[ "#Y" ]} ∖ {[ "#Y" ]})
     ∧ _generate_docstrings (collaborators := stub_collaborators merge_neighbours)
         4 "task" "Y" 2 (Some "#Z") 1 (merge_state merge_registry_stored)
       = _generate_docstrings (collaborators := stub_collaborators merge_neighbours)
           3 "task" "X" 2 (Some "#Z") 1 s2)
  ∧ (∃ s1,
       _generate_docstrings (collaborators := stub_collaborators merge_neighbours)
         4 "task" "Y" 2 (Some "#Z") 1 (merge_state merge_registry_absent)
       = persist_expand_link (collaborators := stub_collaborators merge_neighbours)
           3 (expand_child (collaborators := stub_collaborators merge_neighbours)
                3 "task" 2 "#Y" 1)
           "task" "Y" (Some "#Z") s1).
Proof.
  assert (default ∅ (dependents (registry (merge_state merge_registry_stored)) !! "#Y")
          = ({[ "#Z" ]} : gset string)) as Hdependents
    by (vm_compute; reflexivity).
  split.
  - edestruct (duplicate_of_existing_outcome
                 (collaborators := stub_collaborators merge_neighbours)
                 3 "task" "Y" 2 (Some "#Z") 1 (merge_state merge_registry_stored) "X")
      as (_ & Hmerge & _).
    + not_member.
    + lia.
    + vm_compute. reflexivity.
    + discriminate.
    + destruct Hmerge as (s2 & _ & Htext & Hdir & Hrewired & Hrun).
      * eexists. vm_compute. reflexivity.
      * eexists. vm_compute. reflexivity.
      * cbn [hash_for_docstring stub_collaborators]. change (stub_hash "Y") with "#Y".
        rewrite Hdependents. intros p q Hp Hq _.
        apply elem_of_singleton in Hp, Hq. congruence.
      * cbn [hash_for_docstring stub_collaborators]. change (stub_hash "Y") with "#Y".
        rewrite Hdependents. intros p Hp. apply elem_of_singleton in Hp. subst p.
        split; [discriminate|].
        exists {[ "#Y" ]}. split; [vm_compute; reflexivity|].
        by apply elem_of_singleton.
      * exists s2. split_and!; [exact Htext|exact Hdir| |exact Hrun].
        apply (Hrewired "#Z" {[ "#Y" ]}).
        -- cbn [hash_for_docstring stub_collaborators].
           change (stub_hash "Y") with "#Y".
           rewrite Hdependents. by apply elem_of_singleton.
        -- vm_compute. reflexivity.
  - edestruct (duplicate_of_existing_outcome
                 (collaborators := stub_collaborators merge_neighbours)
                 3 "task" "Y" 2 (Some "#Z") 1 (merge_state merge_registry_absent) "X")
      as (_ & _ & Hnovel).
    + not_member.
    + lia.
    + vm_compute. reflexivity.
    + discriminate.
    + eexists. apply Hnovel. vm_compute. reflexivity.
Defined.

Lemma stored_text_ends_with_newline_witness :
  stub_hash e2e_root ∈ already_traversing e2e_entered
  ∧ ∃ r s',
      persist_expand_link (collaborators := stub_collaborators no_neighbours)
        2 (expand_child (collaborators := stub_collaborators no_neighbours)
             2 "reverse a string" 1 (stub_hash e2e_root) 0)
        "reverse a string" e2e_root None e2e_entered = Ok r s'
      ∧ docstrings (registry s') !! stub_hash e2e_root = Some (e2e_root +:+ nl).
Proof.
  assert (stub_hash e2e_root ∈ already_traversing e2e_entered) as Hin
    by (by apply elem_of_singleton).
  split; [exact Hin|].
  eexists _, _. split; [vm_compute; reflexivity|].
  eapply (proj1 (proj2 (proj2 (stored_text_ends_with_newline
                                 (collaborators := stub_collaborators no_neighbours)
                                 2 "reverse a string" e2e_root 1 None 0
                                 e2e_entered))) Hin).
  vm_compute. reflexivity.
Defined.

Lemma driver_root_id_counterexample :
  (∃ s',
     generate_docstrings_tree (collaborators := stub_collaborators no_neighbours)
       3 "reverse a string" 2 e2e_state = Ok None s'
     ∧ docstrings (registry s') = {[ stub_hash e2e_root := e2e_root +:+ nl ]})
  ∧ ¬ (∃ id s',
         generate_docstrings_tree (collaborators := stub_collaborators no_neighbours)
           3 "reverse a string" 2 e2e_state = Ok (Some id) s').
Proof.
  split.
  - eexists. split; vm_compute; reflexivity.
  - intros (id & s' & Hrun). vm_compute in Hrun. discriminate Hrun.
Defined.

Lemma driver_returns_None_witness :
  1 <= 2
  ∧ ∃ s',
      generate_docstrings_tree (collaborators := e2e_collaborators)
        2 "reverse a string" 2 (mkState empty_registry ∅ 0%nat []) = Ok None s'
      ∧ registry s'
        = mkRegistry {[ stub_hash e2e_root := e2e_root +:+ nl ]}
                     {[ stub_hash e2e_root := ∅ ]}
                     {[ stub_hash e2e_root := ∅ ]}.
Proof.
  split; [lia|].
  destruct (driver_returns_None (collaborators := e2e_collaborators)
              0 "reverse a string" 2 (mkState empty_registry ∅ 0%nat []))
    as (_ & _ & Hscenario); [lia|].
  destruct Hscenario as (s' & Hrun & Hreg).
  - intros w r docstring. reflexivity.
  - intros w docstring. reflexivity.
  - reflexivity.
  - exists s'. split; [exact Hrun|exact Hreg].
Defined.

(** * Further properties of the controller *)

Section MoreProperties.

Context {World : Type} {collaborators : Collaborators World}.

Implicit Types (s : State (World:=World)) (h docstring task : string).

(** ** The traversal set only grows *)

Lemma grows_ret {A} (a : A) : grows (World:=World) (ret a).
Proof. intros s. cbn. reflexivity. Qed.

Lemma grows_raise {A} e : grows (World:=World) (A:=A) (raise e).
Proof. intros s. cbn. reflexivity. Qed.

Lemma grows_bind {A B} (m : M (World:=World) A) (f : A → M B) :
  grows m → (∀ a, grows (f a)) → grows (bind m f).
Proof.
  intros Hm Hf s. unfold bind. specialize (Hm s).
  destruct (m s) as [a s1|e s1|]; [|done..].
  specialize (Hf a s1). destruct (f a s1); [| |done]; set_solver.
Qed.

(** A computation that does not write [already_traversing]. *)
Lemma grows_same {A} (m : M (World:=World) A) :
  (∀ s, match m s with
        | Ok _ s' | Raise _ s' => already_traversing s' = already_traversing s
        | OutOfFuel => True
        end) →
  grows m.
Proof.
  intros Hm s. specialize (Hm s).
  destruct (m s); [| |done]; by rewrite Hm.
Qed.

Lemma grows_io_only {A} (m : M (World:=World) A) : io_only m → grows m.
Proof.
  intros Hio. apply grows_same. intros s. specialize (Hio s).
  destruct (m s); [| |done]; by destruct Hio.
Qed.

(** The file-system primitives do not write [already_traversing]. *)
Ltac registry_only :=
  apply grows_same; intros ?;
  unfold _get_dependencies_registry_dir, _get_dependents_registry_dir,
    unlink_docstring, docstring_exists, rmtree_dependencies, glob_dependents,
    unlink_dependency, rename_dependency, write_docstring, touch_dependent,
    touch_dependency, bind, get_registry, put_registry, raise, ret; cbn;
  repeat match goal with
         | |- context [match ?m !! ?k with _ => _ end] => destruct (m !! k); cbn
         | |- context [decide ?P] => destruct (decide P); cbn
         | |- context [match ?o with Some _ => _ | None => _ end] =>
             destruct o; cbn
         end;
  done.

Lemma grows_for_each {A} (xs : list A) (body : A → M (World:=World) unit) :
  (∀ x, grows (body x)) → grows (for_each xs body).
Proof.
  intros Hbody. induction xs as [|x xs IH]; cbn.
  - apply grows_ret.
  - apply grows_bind; [apply Hbody|done].
Qed.

Lemma grows_gather {A} (coroutines : list (M (World:=World) A)) :
  Forall grows coroutines → grows (gather coroutines).
Proof.
  induction 1 as [|c rest Hc Hrest IH]; cbn.
  - apply grows_ret.
  - apply grows_bind; [done|]. intros x.
    apply grows_bind; [done|]. intros xs. apply grows_ret.
Qed.

Lemma grows_duplicate_of_parent h : grows (World:=World) (duplicate_of_parent h).
Proof.
  unfold duplicate_of_parent.
  apply grows_bind; [registry_only|]. intros _.
  apply grows_bind; [registry_only|]. intros _.
  apply grows_bind; [registry_only|]. intros _.
  apply grows_bind; [registry_only|]. intros paths.
  destruct paths as [|path paths]; cbn; [apply grows_ret|].
  apply grows_bind; [registry_only|]. intros dir.
  apply grows_bind; [registry_only|]. intros _. apply grows_ret.
Qed.

Lemma grows_duplicate_of_existing h sh :
  grows (World:=World) (duplicate_of_existing h sh).
Proof.
  unfold duplicate_of_existing.
  apply grows_bind; [registry_only|]. intros _.
  apply grows_bind; [registry_only|]. intros _.
  apply grows_bind; [registry_only|]. intros paths.
  apply grows_for_each. intros path. unfold rewire_dependent.
  apply grows_bind; [registry_only|]. intros dir. registry_only.
Qed.

Lemma grows_persist_expand_link fuel (expand : string → M (option string))
    task docstring parent :
  (∀ child_docstring, grows (expand child_docstring)) →
  grows (persist_expand_link fuel expand task docstring parent).
Proof.
  intros Hexpand. unfold persist_expand_link, persist.
  apply grows_bind.
  { apply grows_bind; [registry_only|]. intros _.
    destruct parent; [registry_only|apply grows_ret]. }
  intros _.
  apply grows_bind; [apply grows_io_only, io_only_run_loop|]. intros data.
  apply grows_bind.
  { destruct data; cbn; first [apply grows_ret|apply grows_raise]. }
  intros children. apply grows_bind.
  { apply grows_gather, Forall_map, Forall_forall. intros child _.
    apply grows_bind; [|intros child_docstring; apply Hexpand].
    destruct child; cbn; first [apply grows_ret|apply grows_raise]. }
  intros hashes. apply grows_bind; [|intros _; apply grows_ret].
  apply grows_for_each. intros x. registry_only.
Qed.

(** Lines 293-401 of a node that has been entered. *)
Lemma grows_after_entry fuel task docstring max_depth parent current_depth :
  (∀ docstring' parent' current_depth',
     grows (_generate_docstrings fuel task docstring' max_depth parent'
              current_depth')) →
  grows (bind (find_similar fuel docstring)
           (after_similar fuel task docstring max_depth parent current_depth)).
Proof.
  intros Hrec.
  apply grows_bind; [apply grows_io_only, io_only_find_similar|].
  intros [similar|]; unfold after_similar.
  - apply grows_bind.
    { destruct (decide _); [apply grows_duplicate_of_parent|apply grows_ret]. }
    intros [value|]; [apply grows_ret|].
    apply grows_bind; [registry_only|]. intros [|].
    + apply grows_bind; [apply grows_duplicate_of_existing|]. intros _.
      apply Hrec.
    + apply grows_persist_expand_link. intros child. apply Hrec.
  - apply grows_persist_expand_link. intros child. apply Hrec.
Qed.

Lemma grows_generate_docstrings fuel task docstring max_depth parent current_depth :
  grows (_generate_docstrings fuel task docstring max_depth parent current_depth).
Proof.
  revert docstring parent current_depth.
  induction fuel as [|n IH]; intros docstring parent current_depth s; [done|].
  destruct (decide (hash_for_docstring docstring ∈ already_traversing s))
    as [Hseen|Hnew].
  { cbn [_generate_docstrings]. unfold bind, get_already_traversing.
    rewrite decide_True by done. cbn. reflexivity. }
  destruct (decide (max_depth <= current_depth)) as [Hleaf|Hbelow].
  { rewrite generate_docstrings_at_bound by done. cbn. set_solver. }
  rewrite generate_docstrings_enter by (done || lia).
  pose proof (grows_after_entry n task docstring max_depth parent current_depth IH
                (entered (hash_for_docstring docstring) s)) as Hrest.
  destruct (bind _ _ _) as [r s'|e s'|]; [| |done]; cbn in Hrest; set_solver.
Qed.

(** A call that returns has marked its docstring. *)
Lemma generate_docstrings_marks fuel task docstring max_depth parent current_depth
    s r s' :
  _generate_docstrings fuel task docstring max_depth parent current_depth s
  = Ok r s' →
  hash_for_docstring docstring ∈ already_traversing s'.
Proof.
  destruct fuel as [|n]; [done|].
  destruct (decide (hash_for_docstring docstring ∈ already_traversing s))
    as [Hseen|Hnew].
  { cbn [_generate_docstrings]. unfold bind, get_already_traversing.
    rewrite decide_True by done. by intros [= _ <-]. }
  destruct (decide (max_depth <= current_depth)) as [Hleaf|Hbelow].
  { rewrite generate_docstrings_at_bound by done. intros [= _ <-].
    cbn. set_solver. }
  rewrite generate_docstrings_enter by (done || lia). intros Hrun.
  pose proof (grows_after_entry n task docstring max_depth parent current_depth
                (λ d p c, grows_generate_docstrings n task d max_depth p c)
                (entered (hash_for_docstring docstring) s)) as Hrest.
  rewrite Hrun in Hrest. cbn in Hrest. set_solver.
Qed.

(** X1: during an expansion [already_traversing] never loses an element,
    whether the expansion returns or raises, and after an expansion that
    returns it holds the hash of the expanded docstring. *)
Theorem traversal_set_only_grows fuel task docstring max_depth parent
    current_depth s :
  (∀ r s',
     _generate_docstrings fuel task docstring max_depth parent current_depth s
     = Ok r s' →
     already_traversing s ⊆ already_traversing s'
     ∧ hash_for_docstring docstring ∈ already_traversing s')
  ∧ (∀ e s',
       _generate_docstrings fuel task docstring max_depth parent current_depth s
       = Raise e s' →
       already_traversing s ⊆ already_traversing s').
Proof.
  pose proof (grows_generate_docstrings fuel task docstring max_depth parent
                current_depth s) as Hgrows.
  split.
  - intros r s' Hrun. split; [by rewrite Hrun in Hgrows|].
    by eapply generate_docstrings_marks.
  - intros e s' Hrun. by rewrite Hrun in Hgrows.
Qed.

(** X2: within one pass a docstring is expanded at most once.  After a call
    on [docstring] has returned, any further call on the same text, at any
    depth bound, depth and parent, returns its hash and changes nothing: no
    file, no edge, no call to a collaborator. *)
Theorem second_visit_is_noop fuel task docstring max_depth parent current_depth
    s r s' fuel' task' max_depth' parent' current_depth' :
  _generate_docstrings fuel task docstring max_depth parent current_depth s
  = Ok r s' →
  _generate_docstrings (S fuel') task' docstring max_depth' parent'
    current_depth' s'
  = Ok (Some (hash_for_docstring docstring)) s'.
Proof.
  intros Hrun. apply generate_docstrings_marks in Hrun.
  cbn [_generate_docstrings]. unfold bind, get_already_traversing.
  by rewrite decide_True.
Qed.

(** X3: [_generate_docstrings] is declared [str | None] but never returns
    [None]: every value it returns is a hash (its only [return None] sits
    behind removal calls that raise). *)
Theorem expansion_never_returns_None fuel task docstring max_depth parent
    current_depth s r s' :
  _generate_docstrings fuel task docstring max_depth parent current_depth s
  = Ok r s' →
  ∃ id, r = Some id.
Proof. intros Hrun. by eapply generate_docstrings_yields_id. Qed.

(** X4: an expansion that returns has not written, replaced or deleted the
    stored text of any node that was in [already_traversing] when it
    started, and that node is still in [already_traversing]. *)
Theorem traversed_text_untouched fuel task docstring max_depth parent
    current_depth s r s' h0 :
  h0 ∈ already_traversing s →
  _generate_docstrings fuel task docstring max_depth parent current_depth s
  = Ok r s' →
  docstrings (registry s') !! h0 = docstrings (registry s) !! h0
  ∧ h0 ∈ already_traversing s'.
Proof.
  intros Hin Hrun.
  pose proof (keeps_generate_docstrings h0 fuel task docstring max_depth parent
                current_depth s Hin) as Hkeeps.
  rewrite Hrun in Hkeeps. by destruct Hkeeps.
Qed.

(** X5: with [max_depth = 1] the driver does nothing beyond asking for the
    root docstring: its single pass has depth bound 0, so whatever the
    collaborators would answer the registry is unchanged, no other call is
    made, and [None] is returned. *)
Theorem single_pass_driver_stores_nothing fuel task s :
  generate_docstrings_tree (S fuel) task 1 s
  = Ok None
      (mkState (registry s)
         {[ hash_for_docstring
              (get_completion_only (world s) (INITIAL_PROMPT task)).1 ]}
         (get_completion_only (world s) (INITIAL_PROMPT task)).2
         (calls s ++ [CompletionCall (INITIAL_PROMPT task)])).
Proof.
  unfold generate_docstrings_tree.
  erewrite bind_Ok by apply completion_eq.
  change (range 1) with [0]. cbn [passes].
  erewrite bind_Ok; cycle 1.
  { erewrite bind_Ok by reflexivity.
    erewrite bind_Ok by by apply generate_docstrings_at_bound.
    reflexivity. }
  unfold ret, marked, after_completion; cbn.
  by rewrite (right_id_L ∅ (∪)).
Qed.

(** ** Resolution: errors and edges *)

(** The expansion of an entered node whose similarity check raised. *)
Lemma generate_docstrings_check_raises fuel task docstring max_depth parent
    current_depth s e s1 :
  hash_for_docstring docstring ∉ already_traversing s →
  current_depth < max_depth →
  find_similar fuel docstring (entered (hash_for_docstring docstring) s)
  = Raise e s1 →
  _generate_docstrings (S fuel) task docstring max_depth parent current_depth s
  = Raise e s1.
Proof.
  intros Hnew Hdepth Hcheck.
  rewrite generate_docstrings_enter by done. by apply bind_Raise.
Qed.

Lemma find_similar_registry fuel docstring s :
  match find_similar fuel docstring s with
  | Ok _ s1 | Raise _ s1 => registry s1 = registry s
  | OutOfFuel => True
  end.
Proof.
  pose proof (io_only_find_similar fuel docstring s) as Hio.
  destruct (find_similar fuel docstring s); [| |done]; by destruct Hio.
Qed.

(** X6: a candidate whose text is not stored cannot be merged.  When the
    judge points at a stored docstring other than the parent and the
    candidate itself has no stored text (it is met for the first time), the
    [unlink] of line 345 raises [FileNotFoundError]; the registry holds what
    it held plus the two edge directories made on entry. *)
Theorem merge_of_unstored_candidate_raises fuel task docstring max_depth parent
    current_depth s similar s1 :
  hash_for_docstring docstring ∉ already_traversing s →
  current_depth < max_depth →
  find_similar fuel docstring (entered (hash_for_docstring docstring) s)
  = Ok (Some similar) s1 →
  Some (hash_for_docstring similar) ≠ parent →
  is_Some (docstrings (registry s) !! hash_for_docstring similar) →
  docstrings (registry s) !! hash_for_docstring docstring = None →
  _generate_docstrings (S fuel) task docstring max_depth parent current_depth s
  = Raise FileNotFoundError s1
  ∧ registry s1 = registry (entered (hash_for_docstring docstring) s).
Proof.
  intros Hnew Hdepth Hsimilar Hne Hstored Habsent.
  pose proof (find_similar_registry fuel docstring
                (entered (hash_for_docstring docstring) s)) as Hreg.
  rewrite Hsimilar in Hreg. split; [|done].
  rewrite generate_docstrings_enter by done.
  erewrite bind_Ok by done.
  rewrite after_similar_not_parent by done.
  rewrite Hreg. cbn [registry entered docstrings].
  rewrite bool_decide_eq_true_2 by done.
  apply bind_Raise.
  unfold duplicate_of_existing, bind, unlink_docstring, get_registry, raise; cbn.
  rewrite Hreg. cbn. by rewrite Habsent.
Qed.

(** X10: when nothing is close to the candidate but the candidate itself
    (the list of neighbours is empty once its first occurrence is removed),
    the judge is not asked: the candidate is Novel and is persisted,
    expanded and linked right after the nearest-neighbour call. *)
Theorem no_candidates_no_judge fuel task docstring max_depth parent current_depth
    s found s1 :
  hash_for_docstring docstring ∉ already_traversing s →
  current_depth < max_depth →
  closest_functions docstring (entered (hash_for_docstring docstring) s)
  = Ok found s1 →
  list_remove_first docstring found = [] →
  _generate_docstrings (S fuel) task docstring max_depth parent current_depth s
  = persist_expand_link fuel
      (expand_child fuel task max_depth (hash_for_docstring docstring)
         current_depth)
      task docstring parent s1.
Proof.
  intros Hnew Hdepth Hclosest Hnone.
  rewrite generate_docstrings_enter by done.
  assert (find_similar fuel docstring (entered (hash_for_docstring docstring) s)
          = Ok None s1) as Hcheck.
  { unfold find_similar. erewrite bind_Ok by done. by rewrite Hnone. }
  by erewrite bind_Ok by done.
Qed.

Lemma python_index_negative {A} (l : list A) i :
  - Z.of_nat (length l) <= i < 0 →
  ∃ x, l !! Z.to_nat (Z.of_nat (length l) + i) = Some x
       ∧ python_index l i = Some x.
Proof.
  intros Hrange. unfold python_index.
  rewrite bool_decide_eq_false_2 by lia.
  rewrite bool_decide_eq_true_2 by lia.
  destruct (lookup_lt_is_Some_2 l (Z.to_nat (Z.of_nat (length l) + i)))
    as [x Hx]; [lia|].
  exists x. by rewrite Hx.
Qed.

(** X11: a negative ["most similar"] is not rejected.  Under a [True]
    verdict an index [i] with [-len <= i < 0] selects the candidate at
    position [len + i], counted from the end of the list the judge saw. *)
Theorem negative_index_counts_from_end fuel docstring s found s1 fields s2 index :
  closest_functions docstring s = Ok found s1 →
  _run_with_error_loop fuel
    (SIMILAR_PROMPT docstring
       (similar_docstrings_text (list_remove_first docstring found))) "" s1
  = Ok (JObj fields) s2 →
  dict_get fields "same function" = Some (JBool true) →
  dict_get fields "most similar" = Some (JInt index) →
  - Z.of_nat (length (list_remove_first docstring found)) <= index < 0 →
  ∃ similar,
    list_remove_first docstring found
      !! Z.to_nat (Z.of_nat (length (list_remove_first docstring found)) + index)
    = Some similar
    ∧ find_similar fuel docstring s = Ok (Some similar) s2.
Proof.
  intros Hclosest Hjudge Hsame Hindex Hrange.
  destruct (python_index_negative (list_remove_first docstring found) index Hrange)
    as (similar & Hlookup & Hpython).
  exists similar. split; [done|].
  erewrite find_similar_judged; [|done| |done].
  - unfold bind, subscript. rewrite Hsame. unfold ret; cbn.
    rewrite Hindex. cbn. by rewrite Hpython.
  - intros Hempty. rewrite Hempty in Hrange. cbn in Hrange. lia.
Qed.

(** X12: a verdict of the wrong shape is not treated as Novel.  A parsed
    verdict that is not a JSON object raises [TypeError]; an object without
    ["same function"], or with a [True] verdict and without
    ["most similar"], raises [KeyError]; in each case the candidate is not
    stored. *)
Theorem malformed_verdict_raises fuel task docstring max_depth parent
    current_depth s found s1 data s2 :
  hash_for_docstring docstring ∉ already_traversing s →
  current_depth < max_depth →
  closest_functions docstring (entered (hash_for_docstring docstring) s)
  = Ok found s1 →
  list_remove_first docstring found ≠ [] →
  _run_with_error_loop fuel
    (SIMILAR_PROMPT docstring
       (similar_docstrings_text (list_remove_first docstring found))) "" s1
  = Ok data s2 →
  ((∀ fields, data ≠ JObj fields) →
   _generate_docstrings (S fuel) task docstring max_depth parent current_depth s
   = Raise TypeError s2)
  ∧ (∀ fields, data = JObj fields →
       dict_get fields "same function" = None →
       _generate_docstrings (S fuel) task docstring max_depth parent
         current_depth s
       = Raise KeyError s2)
  ∧ (∀ fields, data = JObj fields →
       dict_get fields "same function" = Some (JBool true) →
       dict_get fields "most similar" = None →
       _generate_docstrings (S fuel) task docstring max_depth parent
         current_depth s
       = Raise KeyError s2)
  ∧ docstrings (registry s2) = docstrings (registry s).
Proof.
  intros Hnew Hdepth Hclosest Hsome Hjudge.
  pose proof (find_similar_judged fuel docstring _ found s1 data s2
                Hclosest Hsome Hjudge) as Hcheck.
  split_and!.
  - intros Hshape. apply generate_docstrings_check_raises; [done..|].
    rewrite Hcheck. unfold bind.
    destruct data; try reflexivity. by destruct (Hshape fields).
  - intros fields -> Hmissing. apply generate_docstrings_check_raises; [done..|].
    rewrite Hcheck. unfold bind, subscript. by rewrite Hmissing.
  - intros fields -> Hsame Hmissing.
    apply generate_docstrings_check_raises; [done..|].
    rewrite Hcheck. unfold bind, subscript. rewrite Hsame. unfold ret; cbn.
    by rewrite Hmissing.
  - pose proof (io_only_closest_functions docstring
                  (entered (hash_for_docstring docstring) s)) as H1.
    rewrite Hclosest in H1. destruct H1 as [H1 _].
    pose proof (io_only_run_loop fuel
                  (SIMILAR_PROMPT docstring
                     (similar_docstrings_text (list_remove_first docstring found)))
                  "" "" s1) as H2.
    unfold _run_with_error_loop in Hjudge. rewrite Hjudge in H2.
    destruct H2 as [H2 _]. by rewrite H2, H1.
Qed.

(** X17: the two edge directories of a node are made before the similarity
    check and are not cleaned up when it fails: if the check raises, the
    expansion raises the same exception, both directories exist, and the
    stored texts are those of the start. *)
Theorem failed_check_leaves_edge_directories fuel task docstring max_depth parent
    current_depth s e s1 :
  hash_for_docstring docstring ∉ already_traversing s →
  current_depth < max_depth →
  find_similar fuel docstring (entered (hash_for_docstring docstring) s)
  = Raise e s1 →
  _generate_docstrings (S fuel) task docstring max_depth parent current_depth s
  = Raise e s1
  ∧ is_Some (dependencies (registry s1) !! hash_for_docstring docstring)
  ∧ is_Some (dependents (registry s1) !! hash_for_docstring docstring)
  ∧ docstrings (registry s1) = docstrings (registry s).
Proof.
  intros Hnew Hdepth Hcheck.
  pose proof (find_similar_registry fuel docstring
                (entered (hash_for_docstring docstring) s)) as Hreg.
  rewrite Hcheck in Hreg.
  split; [by apply generate_docstrings_check_raises|].
  rewrite Hreg. cbn. unfold mkdir_exist_ok. split_and!; [| |done].
  - destruct (dependencies (registry s) !! _) eqn:Hd; [by rewrite Hd|].
    rewrite lookup_insert_eq. eauto.
  - destruct (dependents (registry s) !! _) eqn:Hd; [by rewrite Hd|].
    rewrite lookup_insert_eq. eauto.
Qed.

(** ** The repair loop in general *)


Lemma run_loop_retry fuel prompt prepend error_message s repr_e :
  json_loads (prepend +:+ (get_completion_only (world s) (error_message +:+ prompt)).1)
  = JSONDecodeError repr_e →
  run_loop (S fuel) prompt prepend error_message s
  = run_loop fuel prompt prepend
      (ERROR_MESSAGE_TEMPLATE repr_e
         (prepend +:+ (get_completion_only (world s) (error_message +:+ prompt)).1)
       +:+ nl +:+ nl)
      (after_completion (error_message +:+ prompt) s).
Proof.
  intros Hbad. cbn [run_loop].
  erewrite bind_Ok by apply completion_eq. by rewrite Hbad.
Qed.



(** X8: the retry has no cap.  If no response of the gateway ever parses,
    [_run_with_error_loop] never returns and never raises: for every amount
    of fuel the model is still in the loop. *)
Theorem repair_loop_retries_forever prompt prepend :
  (∀ w p, ∃ repr_e,
     json_loads (prepend +:+ (get_completion_only w p).1) = JSONDecodeError repr_e) →
  ∀ fuel s, _run_with_error_loop fuel prompt prepend s = OutOfFuel.
Proof.
  intros Hbad fuel. unfold _run_with_error_loop. generalize "" as error_message.
  induction fuel as [|n IH]; intros error_message s; [done|].
  destruct (Hbad (world s) (error_message +:+ prompt)) as [repr_e Hloads].
  rewrite (run_loop_retry _ _ _ _ _ repr_e) by done. apply IH.
Qed.

(** X9: the error block is replaced, not accumulated.  After two malformed
    responses and a well-formed one the third prompt is the error block of
    the second failure, two newlines and the original prompt; the first
    failure does not appear in it. *)
Theorem retry_prompt_keeps_only_last_error fuel prompt prepend s
    r1 w1 repr_e1 r2 w2 repr_e2 r3 w3 data :
  get_completion_only (world s) prompt = (r1, w1) →
  json_loads (prepend +:+ r1) = JSONDecodeError repr_e1 →
  get_completion_only w1
    ((ERROR_MESSAGE_TEMPLATE repr_e1 (prepend +:+ r1) +:+ nl +:+ nl) +:+ prompt)
  = (r2, w2) →
  json_loads (prepend +:+ r2) = JSONDecodeError repr_e2 →
  get_completion_only w2
    ((ERROR_MESSAGE_TEMPLATE repr_e2 (prepend +:+ r2) +:+ nl +:+ nl) +:+ prompt)
  = (r3, w3) →
  json_loads (prepend +:+ r3) = Parsed data →
  _run_with_error_loop (S (S (S fuel))) prompt prepend s
  = Ok data
      (mkState (registry s) (already_traversing s) w3
         (calls s ++
          [CompletionCall prompt;
           CompletionCall
             ((ERROR_MESSAGE_TEMPLATE repr_e1 (prepend +:+ r1) +:+ nl +:+ nl)
              +:+ prompt);
           CompletionCall
             ((ERROR_MESSAGE_TEMPLATE repr_e2 (prepend +:+ r2) +:+ nl +:+ nl)
              +:+ prompt)])).
Proof.
  intros H1 Hbad1 H2 Hbad2 H3 Hgood.
  unfold _run_with_error_loop. cbn [run_loop].
  unfold bind at 1. unfold completion at 1.
  change ("" +:+ prompt) with prompt.
  rewrite H1, Hbad1.
  unfold bind at 1. unfold completion at 1.
  cbn [world registry already_traversing calls].
  rewrite H2, Hbad2.
  unfold bind, completion. cbn [world registry already_traversing calls].
  rewrite H3, Hgood. unfold ret.
  by rewrite <- !app_assoc.
Qed.

(** ** Persisting and linking *)

(** What lines 367-372 change. *)
Lemma persist_frame docstring parent s s1 :
  persist docstring parent s = Ok tt s1 →
  docstrings (registry s1)
  = <[hash_for_docstring docstring := docstring +:+ nl]> (docstrings (registry s))
  ∧ dependencies (registry s1) = dependencies (registry s)
  ∧ already_traversing s1 = already_traversing s
  ∧ world s1 = world s
  ∧ calls s1 = calls s.
Proof.
  unfold persist, bind, write_docstring, get_registry, put_registry; cbn.
  destruct parent as [p|]; cbn.
  - unfold touch_dependent, bind, get_registry, put_registry, raise; cbn.
    destruct (dependents (registry s) !! _); [|done]. by intros [= <-].
  - unfold ret. by intros [= <-].
Qed.

(** X13: storing is idempotent.  Persisting a docstring under the same
    parent a second time succeeds and leaves the state exactly as the first
    time left it. *)
Theorem persist_is_idempotent docstring parent s s1 :
  persist docstring parent s = Ok tt s1 →
  persist docstring parent s1 = Ok tt s1.
Proof.
  unfold persist, bind, write_docstring, get_registry, put_registry; cbn.
  destruct parent as [p|]; cbn.
  - unfold touch_dependent, bind, get_registry, put_registry, raise; cbn.
    destruct (dependents (registry s) !! _) as [entries|]; [|done].
    intros [= <-]; cbn. rewrite lookup_insert_eq.
    rewrite !insert_insert_eq. do 4 f_equal. set_solver.
  - unfold ret. intros [= <-]; cbn. by rewrite insert_insert_eq.
Qed.

(** X14: when every child returned an id, the loop of lines 398-399 adds
    exactly the set of the returned ids to the markers the node's directory
    held and changes nothing else; the order of the ids and their
    repetitions make no difference to the state reached. *)
Theorem link_records_returned_ids h ids s entries :
  dependencies (registry s) !! h = Some entries →
  ∃ s',
    link h (Some <$> ids) s = Ok tt s'
    ∧ dependencies (registry s') !! h = Some (list_to_set ids ∪ entries)
    ∧ (∀ k, k ≠ h →
         dependencies (registry s') !! k = dependencies (registry s) !! k)
    ∧ docstrings (registry s') = docstrings (registry s)
    ∧ dependents (registry s') = dependents (registry s)
    ∧ (∀ ids', list_to_set ids' =@{gset string} list_to_set ids →
         link h (Some <$> ids') s = Ok tt s').
Proof.
  intros Hdir. eexists. split_and!.
  - by apply link_all_present.
  - cbn. apply lookup_insert_eq.
  - intros k Hk. cbn. by rewrite lookup_insert_ne.
  - done.
  - done.
  - intros ids' Hsame. rewrite (link_all_present h ids' s entries) by done.
    by rewrite Hsame.
Qed.

(** X15: the text is stored before the children are asked for.  If the
    gateway's child list parses to a value that cannot be iterated ([null],
    a boolean or a number), the expansion raises [TypeError] with the text of
    the node already stored. *)
Theorem non_iterable_children_raise fuel expand task docstring parent s s1 data s2 :
  persist docstring parent s = Ok tt s1 →
  _run_with_error_loop fuel (PROMPT task docstring) "" s1 = Ok data s2 →
  data = JNull ∨ (∃ b, data = JBool b) ∨ (∃ n, data = JInt n)
  ∨ (∃ literal, data = JFloat literal) →
  persist_expand_link fuel expand task docstring parent s = Raise TypeError s2
  ∧ docstrings (registry s2) !! hash_for_docstring docstring
    = Some (docstring +:+ nl).
Proof.
  intros Hpersist Hloop Hshape. split.
  - unfold persist_expand_link.
    erewrite bind_Ok by done. erewrite bind_Ok by done.
    by destruct Hshape as [->|[[b ->]|[[n ->]|[literal ->]]]].
  - pose proof (io_only_run_loop fuel (PROMPT task docstring) "" "" s1) as Hio.
    unfold _run_with_error_loop in Hloop. rewrite Hloop in Hio.
    destruct Hio as [-> _].
    destruct (persist_frame _ _ _ _ Hpersist) as (-> & _).
    apply lookup_insert_eq.
Qed.

Lemma persist_dependents_other docstring parent s s1 k :
  persist docstring parent s = Ok tt s1 →
  k ≠ hash_for_docstring docstring →
  dependents (registry s1) !! k = dependents (registry s) !! k.
Proof.
  unfold persist, bind, write_docstring, get_registry, put_registry; cbn.
  destruct parent as [p|]; cbn.
  - unfold touch_dependent, bind, get_registry, put_registry, raise; cbn.
    destruct (dependents (registry s) !! _); [|done].
    intros [= <-] Hk; cbn. by rewrite lookup_insert_ne.
  - unfold ret. by intros [= <-].
Qed.

(** X16: a child that the pass has already traversed (a child shared with
    another parent, or the node's own text) is linked one way only.  The
    re-entry guard returns its hash, so the link step records its marker in
    the node's dependencies directory, but the child's dependents directory
    is not touched: the node does not appear among the child's dependents.
    When the child is the node's own text the node becomes its own
    dependency. *)
Theorem traversed_child_linked_one_way fuel task docstring max_depth parent
    current_depth s child_docstring :
  hash_for_docstring docstring ∈ already_traversing s →
  hash_for_docstring child_docstring ∈ already_traversing s →
  is_Some (dependencies (registry s) !! hash_for_docstring docstring) →
  parent = None
  ∨ is_Some (dependents (registry s) !! hash_for_docstring docstring) →
  json_loads (get_completion_only (world s) (PROMPT task docstring)).1
  = Parsed (JArr [JStr child_docstring]) →
  ∃ s' entries,
    persist_expand_link (S fuel)
      (expand_child (S fuel) task max_depth (hash_for_docstring docstring)
         current_depth)
      task docstring parent s
    = Ok (Some (hash_for_docstring docstring)) s'
    ∧ dependencies (registry s') !! hash_for_docstring docstring = Some entries
    ∧ hash_for_docstring child_docstring ∈ entries
    ∧ (hash_for_docstring child_docstring ≠ hash_for_docstring docstring →
       dependents (registry s') !! hash_for_docstring child_docstring
       = dependents (registry s) !! hash_for_docstring child_docstring).
Proof.
  intros Hseen Hchild_seen [entries Hdir] Hparent Hparsed.
  assert (∃ s1, persist docstring parent s = Ok tt s1) as [s1 Hpersist].
  { unfold persist, bind, write_docstring, get_registry, put_registry; cbn.
    destruct parent as [p|]; cbn; [|by eexists].
    destruct Hparent as [|[marked_by Hdependents]]; [done|].
    unfold touch_dependent, bind, get_registry, put_registry; cbn.
    rewrite Hdependents. by eexists. }
  destruct (persist_frame _ _ _ _ Hpersist)
    as (Hdocs & Hdeps & Htraversing & Hworld & Hcalls).
  unfold persist_expand_link.
  erewrite bind_Ok by done.
  erewrite bind_Ok
    by (apply run_with_error_loop_first_parse; by rewrite Hworld).
  set (s2 := after_completion (PROMPT task docstring) s1).
  assert (expand_child (S fuel) task max_depth (hash_for_docstring docstring)
            current_depth child_docstring s2
          = Ok (Some (hash_for_docstring child_docstring)) s2) as Hchild.
  { unfold expand_child. cbn [_generate_docstrings].
    unfold bind, get_already_traversing.
    rewrite decide_True; [done|]. cbn. by rewrite Htraversing. }
  erewrite bind_Ok by reflexivity.
  erewrite bind_Ok; cycle 1.
  { cbn [map gather]. erewrite bind_Ok; [reflexivity|].
    unfold bind at 1. cbn [as_docstring ret]. exact Hchild. }
  erewrite bind_Ok; cycle 1.
  { unfold link. cbn [for_each].
    erewrite bind_Ok; [reflexivity|].
    apply touch_dependency_Some. cbn. rewrite Hdeps. exact Hdir. }
  eexists _, _.
  split_and!; [reflexivity|cbn; apply lookup_insert_eq|set_solver|].
  intros Hother. cbn. by eapply persist_dependents_other.
Qed.

(** X20: a merge changes nothing under [dependents/]: whether the block of
    lines 345-355 completes or raises, every dependents directory is as it
    was, that of the merged candidate included, and so are
    [already_traversing], the outside world and the calls made. *)
Theorem merge_spares_dependents h similar_docstring_hash s :
  (∀ u s', duplicate_of_existing h similar_docstring_hash s = Ok u s' →
     dependents (registry s') = dependents (registry s)
     ∧ already_traversing s' = already_traversing s
     ∧ world s' = world s ∧ calls s' = calls s)
  ∧ (∀ e s', duplicate_of_existing h similar_docstring_hash s = Raise e s' →
       dependents (registry s') = dependents (registry s)
       ∧ already_traversing s' = already_traversing s
       ∧ world s' = world s ∧ calls s' = calls s).
Proof.
  assert (spares_dependents (World:=World)
            (duplicate_of_existing h similar_docstring_hash)) as Hspares.
  { assert (∀ {A B} (m : M (World:=World) A) (f : A → M B),
              spares_dependents m → (∀ a, spares_dependents (f a)) →
              spares_dependents (bind m f)) as Hbind.
    { intros A B m f Hm Hf s0. unfold bind. specialize (Hm s0).
      destruct (m s0) as [a s1|e s1|]; [|done..].
      specialize (Hf a s1). destruct Hm as (H1 & H2 & H3 & H4).
      destruct (f a s1); [| |done];
        destruct Hf as (? & ? & ? & ?); split_and!; congruence. }
    assert (∀ dir, spares_dependents (World:=World)
                     (_get_dependencies_registry_dir dir)) as Hmkdir
      by (by intros dir s0).
    assert (∀ dir old new, spares_dependents (World:=World)
                             (rename_dependency dir old new)) as Hrename.
    { intros dir old new s0.
      unfold rename_dependency, bind, get_registry, put_registry, raise; cbn.
      destruct (dependencies (registry s0) !! dir); [|done].
      by destruct (decide _). }
    unfold duplicate_of_existing.
    apply Hbind.
    { intros s0. unfold unlink_docstring, bind, get_registry; cbn.
      by destruct (docstrings (registry s0) !! h). }
    intros _. apply Hbind.
    { intros s0. unfold rmtree_dependencies, bind, get_registry; cbn.
      by destruct (dependencies (registry s0) !! h). }
    intros _. apply Hbind; [by intros s0|]. intros paths.
    induction paths as [|path paths IH]; [by intros s0|].
    cbn [for_each]. apply Hbind; [|done].
    unfold rewire_dependent. apply Hbind; [apply Hmkdir|]. intros dir.
    apply Hrename. }
  specialize (Hspares s).
  split; intros ? s' Hrun; by rewrite Hrun in Hspares.
Qed.

(** ** Marker names *)

Lemma rfind_dot_from_no_dot i name :
  "."%char ∉ String.list_ascii_of_string name →
  rfind_dot_from i name = None.
Proof.
  revert i. induction name as [|c rest IH]; intros i Hno; [done|].
  cbn in *. apply not_elem_of_cons in Hno as [Hc Hrest].
  rewrite IH by done.
  destruct (Ascii.eqb c ".") eqn:Heq; [|done].
  apply Ascii.eqb_eq in Heq. by subst.
Qed.

(** X18: the stem of a marker name without a dot is the name itself, so
    the loops of lines 330-335 and 347-355 address the dependent named by
    the marker as long as hashes hold no dot. *)
Theorem stem_without_dot name :
  "."%char ∉ String.list_ascii_of_string name →
  stem name = name.
Proof. intros Hno. unfold stem. by rewrite rfind_dot_from_no_dot. Qed.

(** ** The dependency walk *)

(** X19: [_dependency_walk] cannot return a tree.  It makes sure the
    dependencies directory of the hash exists and then opens that directory
    as a file, which raises [IsADirectoryError] before anything is read,
    whatever the registry holds. *)
Theorem dependency_walk_always_raises fuel docstring_hash max_depth current_depth s :
  _dependency_walk (S fuel) docstring_hash max_depth current_depth s
  = WalkRaise IsADirectoryError
      (mkState (mkRegistry (docstrings (registry s))
                  (mkdir_exist_ok docstring_hash (dependencies (registry s)))
                  (dependents (registry s)))
               (already_traversing s) (world s) (calls s)).
Proof.
  cbn [_dependency_walk]. unfold walk_bind at 1.
  unfold walk_lift, _get_dependencies_registry_dir, bind, get_registry,
    put_registry, ret; cbn.
  unfold walk_bind, open_read_dependencies; cbn.
  unfold mkdir_exist_ok.
  destruct (dependencies (registry s) !! docstring_hash) eqn:Hdir.
  - by rewrite Hdir.
  - by rewrite lookup_insert_eq.
Qed.

(** ** Linking the children of an expansion *)






















End MoreProperties.

(** * The further properties at concrete inputs *)

Lemma traversal_set_only_grows_witness :
  (∃ r s',
     _generate_docstrings (collaborators := stub_collaborators merge_neighbours)
       4 "task" "Y" 2 (Some "#Z") 1 (merge_state merge_registry_stored)
     = Ok r s'
     ∧ already_traversing (merge_state merge_registry_stored)
       ⊆ already_traversing s'
     ∧ "#Y" ∈ already_traversing s')
  ∧ (∃ e s',
       _generate_docstrings (collaborators := stub_collaborators prune_neighbours)
         3 "task" "B" 1 None 0 (judge_state [verdict_text "5" "true"])
       = Raise e s'
       ∧ already_traversing (judge_state [verdict_text "5" "true"])
         ⊆ already_traversing s').
Proof.
  split.
  - eexists _, _. split; [vm_compute; reflexivity|].
    apply (proj1 (traversal_set_only_grows
                    (collaborators := stub_collaborators merge_neighbours)
                    4 "task" "Y" 2 (Some "#Z") 1
                    (merge_state merge_registry_stored)) (Some "#X")).
    vm_compute. reflexivity.
  - eexists _, _. split; [vm_compute; reflexivity|].
    apply (proj2 (traversal_set_only_grows
                    (collaborators := stub_collaborators prune_neighbours)
                    3 "task" "B" 1 None 0
                    (judge_state [verdict_text "5" "true"])) IndexError).
    vm_compute. reflexivity.
Defined.

Lemma second_visit_is_noop_witness :
  ∃ r s',
    _generate_docstrings (collaborators := stub_collaborators merge_neighbours)
      4 "task" "Y" 2 (Some "#Z") 1 (merge_state merge_registry_stored)
    = Ok r s'
    ∧ _generate_docstrings (collaborators := stub_collaborators merge_neighbours)
        1 "another task" "Y" 5 None 0 s'
      = Ok (Some "#Y") s'.
Proof.
  eexists _, _. split; [vm_compute; reflexivity|].
  apply (second_visit_is_noop
           (collaborators := stub_collaborators merge_neighbours)
           4 "task" "Y" 2 (Some "#Z") 1 (merge_state merge_registry_stored)
           (Some "#X")).
  vm_compute. reflexivity.
Defined.

Lemma expansion_never_returns_None_witness :
  ∃ r s' id,
    _generate_docstrings (collaborators := stub_collaborators merge_neighbours)
      4 "task" "Y" 2 (Some "#Z") 1 (merge_state merge_registry_stored)
    = Ok r s'
    ∧ r = Some id.
Proof.
  assert (∃ r s',
            _generate_docstrings
              (collaborators := stub_collaborators merge_neighbours)
              4 "task" "Y" 2 (Some "#Z") 1 (merge_state merge_registry_stored)
            = Ok r s') as (r & s' & Hrun)
    by (eexists _, _; vm_compute; reflexivity).
  destruct (expansion_never_returns_None
              (collaborators := stub_collaborators merge_neighbours)
              4 "task" "Y" 2 (Some "#Z") 1 (merge_state merge_registry_stored)
              r s' Hrun) as [id Hid].
  exists r, s', id. split; [exact Hrun|exact Hid].
Defined.

Lemma traversed_text_untouched_witness :
  "#Z" ∈ already_traversing (merge_state merge_registry_stored)
  ∧ ∃ r s',
      _generate_docstrings (collaborators := stub_collaborators merge_neighbours)
        4 "task" "Y" 2 (Some "#Z") 1 (merge_state merge_registry_stored)
      = Ok r s'
      ∧ docstrings (registry s') !! "#Z"
        = docstrings (registry (merge_state merge_registry_stored)) !! "#Z"
      ∧ "#Z" ∈ already_traversing s'.
Proof.
  assert ("#Z" ∈ already_traversing (merge_state merge_registry_stored)) as Hin
    by (by apply elem_of_singleton).
  split; [exact Hin|].
  eexists _, _. split; [vm_compute; reflexivity|].
  apply (traversed_text_untouched
           (collaborators := stub_collaborators merge_neighbours)
           4 "task" "Y" 2 (Some "#Z") 1 (merge_state merge_registry_stored)
           (Some "#X") _ "#Z" Hin).
  vm_compute. reflexivity.
Defined.

Lemma merge_of_unstored_candidate_raises_witness :
  ∃ s1,
    _generate_docstrings (collaborators := stub_collaborators prune_neighbours)
      3 "task" "B" 1 None 0 (judge_state [verdict_text "0" "true"])
    = Raise FileNotFoundError s1
    ∧ registry s1
      = registry (entered "#B" (judge_state [verdict_text "0" "true"])).
Proof.
  eexists.
  eapply (merge_of_unstored_candidate_raises
            (collaborators := stub_collaborators prune_neighbours)
            2 "task" "B" 1 None 0 (judge_state [verdict_text "0" "true"]) "A").
  - not_member.
  - lia.
  - vm_compute. reflexivity.
  - discriminate.
  - eexists. vm_compute. reflexivity.
  - vm_compute. reflexivity.
Defined.

Lemma repair_loop_retries_forever_witness :
  _run_with_error_loop (collaborators := never_parsing_collaborators)
    5 "children of: A" "" repair_state
  = OutOfFuel.
Proof.
  apply (repair_loop_retries_forever (collaborators := never_parsing_collaborators)
           "children of: A" "").
  intros w p. eexists. reflexivity.
Defined.

Lemma retry_prompt_keeps_only_last_error_witness :
  _run_with_error_loop (collaborators := stub_collaborators no_neighbours)
    3 "children of: A" "" (mkState empty_registry ∅ ["oops"; "worse"; "[]"] [])
  = Ok (JArr [])
      (mkState empty_registry ∅ []
         [CompletionCall "children of: A";
          CompletionCall
            ((ERROR_MESSAGE_TEMPLATE stub_decode_error "oops" +:+ nl +:+ nl)
             +:+ "children of: A");
          CompletionCall
            ((ERROR_MESSAGE_TEMPLATE stub_decode_error "worse" +:+ nl +:+ nl)
             +:+ "children of: A")]).
Proof.
  apply (retry_prompt_keeps_only_last_error
           (collaborators := stub_collaborators no_neighbours)
           0 "children of: A" ""
           (mkState empty_registry ∅ ["oops"; "worse"; "[]"] [])
           "oops" ["worse"; "[]"] stub_decode_error
           "worse" ["[]"] stub_decode_error
           "[]" [] (JArr [])); reflexivity.
Defined.

Lemma no_candidates_no_judge_witness :
  ∃ s1,
    _generate_docstrings (collaborators := stub_collaborators no_neighbours)
      3 "reverse a string" e2e_root 1 None 0 (mkState empty_registry ∅ ["[]"] [])
    = persist_expand_link (collaborators := stub_collaborators no_neighbours)
        2 (expand_child (collaborators := stub_collaborators no_neighbours)
             2 "reverse a string" 1 (stub_hash e2e_root) 0)
        "reverse a string" e2e_root None s1.
Proof.
  eexists.
  eapply (no_candidates_no_judge
            (collaborators := stub_collaborators no_neighbours)
            2 "reverse a string" e2e_root 1 None 0
            (mkState empty_registry ∅ ["[]"] []) []).
  - not_member.
  - lia.
  - vm_compute. reflexivity.
  - reflexivity.
Defined.

Lemma negative_index_counts_from_end_witness :
  ∃ s2,
    find_similar (collaborators := extended_collaborators two_neighbours)
      2 "B" (judge_state [verdict_text "-1" "true"])
    = Ok (Some "C") s2.
Proof.
  edestruct (negative_index_counts_from_end
               (collaborators := extended_collaborators two_neighbours)
               2 "B" (judge_state [verdict_text "-1" "true"]) ["A"; "C"])
    with (index := -1) as (similar & Hlookup & Hfind).
  - vm_compute. reflexivity.
  - vm_compute. reflexivity.
  - reflexivity.
  - reflexivity.
  - split; [vm_compute; discriminate|reflexivity].
  - vm_compute in Hlookup. injection Hlookup as <-.
    eexists. exact Hfind.
Defined.

Lemma malformed_verdict_raises_witness :
  (∃ s2,
     _generate_docstrings (collaborators := extended_collaborators prune_neighbours)
       3 "task" "B" 1 None 0 (judge_state ["[]"])
     = Raise TypeError s2)
  ∧ (∃ s2,
       _generate_docstrings
         (collaborators := extended_collaborators prune_neighbours)
         3 "task" "B" 1 None 0 (judge_state ["{}"])
       = Raise KeyError s2).
Proof.
  split.
  - edestruct (malformed_verdict_raises
                 (collaborators := extended_collaborators prune_neighbours)
                 2 "task" "B" 1 None 0 (judge_state ["[]"]) ["A"])
      with (data := JArr []) as (Hshape & _).
    + not_member.
    + lia.
    + vm_compute. reflexivity.
    + discriminate.
    + vm_compute. reflexivity.
    + eexists. apply Hshape. discriminate.
  - edestruct (malformed_verdict_raises
                 (collaborators := extended_collaborators prune_neighbours)
                 2 "task" "B" 1 None 0 (judge_state ["{}"]) ["A"])
      with (data := JObj []) as (_ & Hmissing & _).
    + not_member.
    + lia.
    + vm_compute. reflexivity.
    + discriminate.
    + vm_compute. reflexivity.
    + eexists. apply (Hmissing []); reflexivity.
Defined.

Lemma persist_is_idempotent_witness :
  ∃ s1,
    persist (collaborators := stub_collaborators prune_neighbours)
      "B" (Some "#A") prune_state = Ok tt s1
    ∧ persist (collaborators := stub_collaborators prune_neighbours)
        "B" (Some "#A") s1 = Ok tt s1.
Proof.
  eexists. split; [vm_compute; reflexivity|].
  apply (persist_is_idempotent
           (collaborators := stub_collaborators prune_neighbours)
           "B" (Some "#A") prune_state).
  vm_compute. reflexivity.
Defined.

Lemma link_records_returned_ids_witness :
  dependencies (registry prune_state) !! "#A" = Some {[ "#B" ]}
  ∧ ∃ s',
      link "#A" (Some <$> ["a"; "b"; "a"]) prune_state = Ok tt s'
      ∧ dependencies (registry s') !! "#A"
        = Some (list_to_set ["a"; "b"; "a"] ∪ {[ "#B" ]})
      ∧ link "#A" (Some <$> ["b"; "a"]) prune_state = Ok tt s'.
Proof.
  assert (dependencies (registry prune_state) !! "#A" = Some {[ "#B" ]}) as Hdir
    by (vm_compute; reflexivity).
  split; [exact Hdir|].
  destruct (link_records_returned_ids "#A" ["a"; "b"; "a"] prune_state
              {[ "#B" ]} Hdir)
    as (s' & Hrun & Hmarkers & _ & _ & _ & Hany).
  exists s'. split_and!; [exact Hrun|exact Hmarkers|].
  apply Hany. vm_compute. reflexivity.
Defined.

Lemma non_iterable_children_raise_witness :
  ∃ s2,
    persist_expand_link (collaborators := extended_collaborators no_neighbours)
      2 (expand_child (collaborators := extended_collaborators no_neighbours)
           2 "task" 1 "#A" 0)
      "task" "A" None (entered_A ["null"])
    = Raise TypeError s2
    ∧ docstrings (registry s2) !! "#A" = Some ("A" +:+ nl).
Proof.
  eexists.
  eapply (non_iterable_children_raise
            (collaborators := extended_collaborators no_neighbours)
            2 _ "task" "A" None (entered_A ["null"]) _ JNull).
  - vm_compute. reflexivity.
  - vm_compute. reflexivity.
  - by left.
Defined.

Lemma traversed_child_linked_one_way_witness :
  (∃ s' entries,
     persist_expand_link (collaborators := extended_collaborators no_neighbours)
       1 (expand_child (collaborators := extended_collaborators no_neighbours)
            1 "task" 1 "#A" 0)
       "task" "A" None shared_child_state
     = Ok (Some "#A") s'
     ∧ dependencies (registry s') !! "#A" = Some entries
     ∧ "#C" ∈ entries
     ∧ dependents (registry s') !! "#C" = Some {[ "#P" ]})
  ∧ (∃ s' entries,
       persist_expand_link (collaborators := extended_collaborators no_neighbours)
         1 (expand_child (collaborators := extended_collaborators no_neighbours)
              1 "task" 1 "#A" 0)
         "task" "A" None (entered_A ["[" +:+ quoted "A" +:+ "]"])
       = Ok (Some "#A") s'
       ∧ dependencies (registry s') !! "#A" = Some entries
       ∧ "#A" ∈ entries).
Proof.
  split.
  - destruct (traversed_child_linked_one_way
                (collaborators := extended_collaborators no_neighbours)
                0 "task" "A" 1 None 0 shared_child_state "C")
      as (s' & entries & Hrun & Hdir & Hin & Hmirror).
    + apply (bool_decide_unpack _). vm_compute. exact I.
    + apply (bool_decide_unpack _). vm_compute. exact I.
    + eexists. vm_compute. reflexivity.
    + by left.
    + vm_compute. reflexivity.
    + exists s', entries. split_and!; [exact Hrun|exact Hdir|exact Hin|].
      etrans; [apply Hmirror|vm_compute; reflexivity].
      intros Heq. vm_compute in Heq. discriminate Heq.
  - destruct (traversed_child_linked_one_way
                (collaborators := extended_collaborators no_neighbours)
                0 "task" "A" 1 None 0 (entered_A ["[" +:+ quoted "A" +:+ "]"]) "A")
      as (s' & entries & Hrun & Hdir & Hin & _).
    + by apply elem_of_singleton.
    + by apply elem_of_singleton.
    + eexists. vm_compute. reflexivity.
    + by left.
    + vm_compute. reflexivity.
    + exists s', entries. split_and!; [exact Hrun|exact Hdir|exact Hin].
Defined.

Lemma failed_check_leaves_edge_directories_witness :
  ∃ s1,
    _generate_docstrings (collaborators := stub_collaborators prune_neighbours)
      3 "task" "B" 1 None 0 (judge_state [verdict_text "5" "true"])
    = Raise IndexError s1
    ∧ is_Some (dependencies (registry s1) !! "#B")
    ∧ is_Some (dependents (registry s1) !! "#B")
    ∧ docstrings (registry s1)
      = docstrings (registry (judge_state [verdict_text "5" "true"])).
Proof.
  eexists.
  eapply (failed_check_leaves_edge_directories
            (collaborators := stub_collaborators prune_neighbours)
            2 "task" "B" 1 None 0 (judge_state [verdict_text "5" "true"])).
  - not_member.
  - lia.
  - vm_compute. reflexivity.
Defined.

Lemma merge_spares_dependents_witness :
  ∃ s',
    duplicate_of_existing "#Y" "#X" (merge_state merge_registry_stored) = Ok tt s'
    ∧ dependents (registry s')
      = dependents (registry (merge_state merge_registry_stored)).
Proof.
  eexists. split; [vm_compute; reflexivity|].
  eapply (proj1 (merge_spares_dependents "#Y" "#X"
                   (merge_state merge_registry_stored)) tt).
  vm_compute. reflexivity.
Defined.

Lemma stem_without_dot_witness :
  ("."%char ∉ String.list_ascii_of_string "#Z") ∧ stem "#Z" = "#Z".
Proof.
  assert ("."%char ∉ String.list_ascii_of_string "#Z") as Hno.
  { apply (bool_decide_unpack _). vm_compute. exact I. }
  split; [exact Hno|]. exact (stem_without_dot "#Z" Hno).
Defined.

